(** * eval_on_gold: evaluation of a classifier on a gold data set

    A shallow embedding of [kaggle-classification/bin/eval_on_gold.py]
    and the properties of its four functions [calculate_auc],
    [score_gold], [eval_gold] and [main].

    The script is glue around pandas, numpy and scikit-learn.  The first
    part of the file models the pandas operations the script calls
    (column lookup and assignment, boolean-mask selection, [iterrows],
    [isin], [unique], [astype], [mean], [concat]); the second part is the
    script itself, written over an exception monad and, where the script
    mutates the frame it was handed, over a state monad whose store is
    that frame.  External components (the model, the ROC-AUC metric, the
    parser of floats, the opening of a file for writing) are variables of
    a section. *)

From Stdlib Require Import QArith Qabs Ascii.
From stdpp Require Import base option list gmap strings.

Close Scope Q_scope.
Open Scope string_scope.
Open Scope list_scope.

(** ** Values *)

(** A [float64]: a number, idealised as a rational, or NaN.  Rounding and
    infinities are outside the model. *)
Inductive float : Type :=
  | FNum (q : Q)
  | FNaN.

(** A cell of a frame: an [int64], a [float64] or a Python string (the
    content of an [object] column read from a CSV file).  A missing CSV
    field is [VFloat FNaN]. *)
Inductive cell : Type :=
  | VInt (z : Z)
  | VFloat (f : float)
  | VStr (s : string).

Definition NaN : cell := VFloat FNaN.

(** The exceptions the script can meet. *)
Inductive exn : Type :=
  | KeyError
  | ValueError
  | TypeError
  | IndexError
  | NotFoundError
  | PermissionDeniedError.

Inductive result (A : Type) : Type :=
  | Ok (a : A)
  | Raise (e : exn).
Arguments Ok {A} a.
Arguments Raise {A} e.

Definition rbind {A B} (m : result A) (k : A -> result B) : result B :=
  match m with
  | Ok a => k a
  | Raise e => Raise e
  end.

Declare Scope result_scope.
Delimit Scope result_scope with result.
Notation "'let*' x ':=' m 'in' k" := (rbind m (fun x => k))
  (at level 10, x name, m at level 100, k at level 200) : result_scope.
Notation "'let*' ' pat ':=' m 'in' k" :=
  (rbind m (fun x => match x with pat => k end))
  (at level 10, pat pattern, m at level 100, k at level 200) : result_scope.
Open Scope result_scope.

Definition of_option {A} (e : exn) (o : option A) : result A :=
  match o with
  | Some a => Ok a
  | None => Raise e
  end.

Definition raises {A} (r : result A) : Prop := exists e, r = Raise e.

(** A comprehension [[f x for x in l]]: the first failing element aborts. *)
Fixpoint mapR {A B} (f : A -> result B) (l : list A) : result (list B) :=
  match l with
  | [] => Ok []
  | x :: l' => let* y := f x in let* ys := mapR f l' in Ok (y :: ys)
  end.

(** A [for] loop threading an accumulator. *)
Fixpoint foldR {A S} (f : S -> A -> result S) (s : S) (l : list A) : result S :=
  match l with
  | [] => Ok s
  | x :: l' => let* s' := f s x in foldR f s' l'
  end.

(** ** Float and cell arithmetic *)

Definition float_sub (a b : float) : float :=
  match a, b with
  | FNum p, FNum q => FNum (p - q)
  | _, _ => FNaN
  end.

Definition float_abs (a : float) : float :=
  match a with
  | FNum p => FNum (Qabs p)
  | FNaN => FNaN
  end.

Definition is_nan (a : float) : bool :=
  match a with
  | FNaN => true
  | FNum _ => false
  end.

(** The numeric value of a cell, none for a string. *)
Definition cell_num (c : cell) : option float :=
  match c with
  | VInt z => Some (FNum (inject_Z z))
  | VFloat f => Some f
  | VStr _ => None
  end.

(** Python's [==] on two cells: numbers compare by value ([1 == 1.0]),
    NaN equals nothing, a string equals only the same string. *)
Definition cell_eqb (a b : cell) : bool :=
  match a, b with
  | VStr s, VStr t => String.eqb s t
  | VStr _, _ | _, VStr _ => false
  | _, _ =>
      match cell_num a, cell_num b with
      | Some (FNum p), Some (FNum q) => Qeq_bool p q
      | _, _ => false
      end
  end.

Definition cell_is_nan (c : cell) : bool :=
  match c with
  | VFloat FNaN => true
  | _ => false
  end.

(** Sameness as pandas' hash tables see it ([unique]): [==], and all NaN
    are one value. *)
Definition cell_same (a b : cell) : bool :=
  cell_eqb a b || (cell_is_nan a && cell_is_nan b).

(** [a - b] on two cells of a row; a string operand is a [TypeError]. *)
Definition cell_sub (a b : cell) : result float :=
  match cell_num a, cell_num b with
  | Some x, Some y => Ok (float_sub x y)
  | _, _ => Raise TypeError
  end.

(** ** Frames and rows *)

Abbreviation column := (list cell).

(** A DataFrame: its columns in order, each with its name.  The row index
    is the default 0..n-1 throughout the script and is left implicit. *)
Abbreviation DataFrame := (list (string * column)).

(** A row as [iterrows] yields it: a Series indexed by the column names. *)
Abbreviation Series := (list (string * cell)).

Fixpoint assoc {V} (k : string) (l : list (string * V)) : option V :=
  match l with
  | [] => None
  | (k', v) :: l' => if String.eqb k k' then Some v else assoc k l'
  end.

(** [df[k]] *)
Definition df_getitem (df : DataFrame) (k : string) : result column :=
  of_option KeyError (assoc k df).

(** [df[k] = col]: an existing column is replaced where it stands, a new
    one is appended. *)
Fixpoint df_setitem (df : DataFrame) (k : string) (col : column) : DataFrame :=
  match df with
  | [] => [(k, col)]
  | (k', c) :: df' =>
      if String.eqb k k' then (k', col) :: df' else (k', c) :: df_setitem df' k col
  end.

(** [row[k]] for a string key *)
Definition series_getitem (row : Series) (k : string) : result cell :=
  of_option KeyError (assoc k row).

(** [row.iloc[z]]: the cell at a position, counted from the end when the
    position is negative; a position outside the row is an [IndexError]. *)
Definition series_iloc (row : Series) (z : Z) : result cell :=
  let n := Z.of_nat (length row) in
  let i := if Z.ltb z 0 then (n + z)%Z else z in
  if Z.leb 0 i && Z.ltb i n
  then of_option IndexError (snd <$> row !! Z.to_nat i)
  else Raise IndexError.

(** [row[c]] where the key is itself a cell of the row.  The index of a
    row is made of column names, which are strings: a string key is looked
    up among them; an integer key is not a name, and the pandas the script
    was written for falls back to the position; a float key finds
    nothing.  (The rows of a frame that holds a string column, as a
    scored frame holds the comments, keep their integer cells as
    integers.) *)
Definition series_getitem_cell (row : Series) (c : cell) : result cell :=
  match c with
  | VStr k => series_getitem row k
  | VInt z => series_iloc row z
  | VFloat _ => Raise KeyError
  end.

Definition columns (df : DataFrame) : list string := map fst df.

Definition nrows (df : DataFrame) : nat :=
  match df with
  | [] => 0
  | (_, c) :: _ => length c
  end.

(** Keep the elements whose flag is set. *)
Fixpoint bool_mask {A} (m : list bool) (l : list A) : list A :=
  match m, l with
  | b :: m', x :: l' => if b then x :: bool_mask m' l' else bool_mask m' l'
  | _, _ => []
  end.

(** [df[mask]] for a boolean Series [mask] *)
Definition mask_select (df : DataFrame) (m : list bool) : DataFrame :=
  map (fun kc => (kc.1, bool_mask m kc.2)) df.

Definition heads (df : DataFrame) : Series :=
  map (fun kc => (kc.1, hd NaN kc.2)) df.

Definition tails (df : DataFrame) : DataFrame :=
  map (fun kc => (kc.1, tl kc.2)) df.

Fixpoint iterrows_n (n : nat) (df : DataFrame) : list Series :=
  match n with
  | O => []
  | S n' => heads df :: iterrows_n n' (tails df)
  end.

(** [[row for _, row in df.iterrows()]] *)
Definition iterrows (df : DataFrame) : list Series :=
  iterrows_n (nrows df) df.

(** [col.isin([0, 1])], element by element *)
Definition isin01 (c : cell) : bool :=
  cell_eqb c (VInt 0) || cell_eqb c (VInt 1).

(** [col == v], element by element *)
Definition col_eq (col : column) (v : cell) : list bool :=
  map (fun c => cell_eqb c v) col.

(** [col.unique()]: the distinct values in order of first appearance. *)
Fixpoint unique (col : column) : column :=
  match col with
  | [] => []
  | c :: col' => c :: List.filter (fun d => negb (cell_same c d)) (unique col')
  end.

(** [col.mean()]: NaN entries are skipped (pandas' default [skipna]); with
    nothing left the mean is NaN. *)
Definition nan_free (l : list float) : list Q :=
  omap (fun f => match f with FNum q => Some q | FNaN => None end) l.

Definition Qsum (l : list Q) : Q := foldr Qplus 0%Q l.

Definition mean_of (l : list Q) : float :=
  match l with
  | [] => FNaN
  | _ => FNum (Qsum l / inject_Z (Z.of_nat (length l)))
  end.

Definition series_mean (col : column) : result float :=
  let* fs := mapR (fun c => of_option TypeError (cell_num c)) col in
  Ok (mean_of (nan_free fs)).

(** The frames the model is faithful for: distinct column names (pandas
    answers a duplicated name with a frame, not a column) and columns of
    one length. *)
Definition wf_frame (df : DataFrame) : bool :=
  bool_decide (NoDup (columns df)) &&
  forallb (fun kc => Nat.eqb (length kc.2) (nrows df)) df.

(** ** The model and the files *)

(** What the script uses of [keras_trainer.model.ModelRunner]: its
    [predict] method, which returns one row of scores per comment, and its
    [labels], the names of the output heads. *)
Record Model : Type := {
  predict : column -> result (list (list float));
  labels : list string
}.

(** A file is held parsed: a CSV file as the frame it stores, a JSON file
    as the dictionary it stores. *)
Inductive file : Type :=
  | CsvFile (df : DataFrame)
  | JsonFile (d : gmap string cell).

Record Flags : Type := {
  gold_path : string;
  output_path : string;
  job_dir : string;
  labels_flag : string;
  embeddings_path : string
}.

(** [pd.read_csv] on an opened path *)
Definition read_csv (fs : gmap string file) (path : string) : result DataFrame :=
  match fs !! path with
  | Some (CsvFile df) => Ok df
  | Some (JsonFile _) => Raise ValueError
  | None => Raise NotFoundError
  end.

(** [pd.DataFrame(scores, columns=labels)]: column [j] holds the [j]-th
    score of every row; a row of another width is a [ValueError]. *)
Fixpoint score_columns (labels : list string) (scores : list (list float)) : DataFrame :=
  match labels with
  | [] => []
  | l :: ls =>
      (l, map (fun r => VFloat (hd FNaN r)) scores) :: score_columns ls (map tl scores)
  end.

Definition frame_of_scores (scores : list (list float)) (labels : list string)
  : result DataFrame :=
  if forallb (fun r => Nat.eqb (length r) (length labels)) scores
  then Ok (score_columns labels scores)
  else Raise ValueError.

(** [pd.concat([a, b], axis=1)] on two default indexes: the columns of
    [a], then those of [b]; the shorter frame is filled with NaN, which
    turns its integer columns into float columns. *)
Definition upcast (c : cell) : cell :=
  match c with
  | VInt z => VFloat (FNum (inject_Z z))
  | _ => c
  end.

Definition reindex (n : nat) (col : column) : column :=
  if Nat.ltb (length col) n
  then map upcast col ++ replicate (n - length col) NaN
  else col.

Definition concat_columns (a b : DataFrame) : DataFrame :=
  let n := Nat.max (nrows a) (nrows b) in
  map (fun kc => (kc.1, reindex n kc.2)) (a ++ b).

(** ** The state monad of [eval_gold]: the store is the frame it was given *)

Definition M (A : Type) : Type := DataFrame -> DataFrame * result A.

Definition mbindM {A B} (m : M A) (k : A -> M B) : M B :=
  fun df =>
    match m df with
    | (df', Ok a) => k a df'
    | (df', Raise e) => (df', Raise e)
    end.

Definition lift {A} (r : result A) : M A := fun df => (df, r).
Definition this : M DataFrame := fun df => (df, Ok df).
Definition getitem (k : string) : M column := fun df => (df, df_getitem df k).
Definition setitem (k : string) (col : column) : M unit :=
  fun df => (df_setitem df k col, Ok tt).

Declare Scope frame_scope.
Delimit Scope frame_scope with frame.
Notation "'do' x '<-' m ';' k" := (mbindM m (fun x => k))
  (at level 10, x name, m at level 100, k at level 200) : frame_scope.
Notation "'run' m ';' k" := (mbindM m (fun _ => k))
  (at level 10, m at level 100, k at level 200) : frame_scope.

(** ['auc_' + label]: adding a cell that is not a string to a string is a
    [TypeError]. *)
Definition str_add (s : string) (c : cell) : result string :=
  match c with
  | VStr t => Ok (s +:+ t)
  | _ => Raise TypeError
  end.

(** ** The script *)

Section Script.

(** [sklearn.metrics.roc_auc_score y_true y_score] *)
Variable roc_auc_score : column -> column -> result float.

(** Python's [float(s)] on a string cell, as [astype('float64')] applies
    it to an [object] column. *)
Variable float_of_string : string -> option float.

(** The constructor [ModelRunner(job_dir, embeddings_path, log_path,
    hparams, labels)], which loads the model from the files. *)
Variable ModelRunner : string -> string -> string -> gmap string file -> result Model.

(** [tf.gfile.Open(path, 'w')]: whether the path can be written, and the
    error raised when it cannot. *)
Variable open_w : string -> result unit.

(** [with tf.gfile.Open(path, 'w') as f: f.write(content)] *)
Definition gfile_write (fs : gmap string file) (path : string) (content : file)
  : gmap string file * result unit :=
  match open_w path with
  | Ok _ => (<[path := content]> fs, Ok tt)
  | Raise e => (fs, Raise e)
  end.

(** [row[row['label']]] *)
Definition score_of_row (row : Series) : result cell :=
  let* label := series_getitem row "label" in
  series_getitem_cell row label.

Definition calculate_auc (df_gold_scored : DataFrame) : result float :=
  let* gold := df_getitem df_gold_scored "gold" in
  let df := mask_select df_gold_scored (map isin01 gold) in
  let* y_score := mapR score_of_row (iterrows df) in
  let* y_true := df_getitem df "gold" in
  roc_auc_score y_true y_score.

Definition score_gold (df_gold : DataFrame) (model : Model) : result DataFrame :=
  let* text := df_getitem df_gold "comment_text" in
  let* scores := predict model text in
  let* df_scores := frame_of_scores scores (labels model) in
  Ok (concat_columns df_scores df_gold).

(** [col.astype('float64')] *)
Definition to_float64 (c : cell) : result cell :=
  match c with
  | VInt z => Ok (VFloat (FNum (inject_Z z)))
  | VFloat f => Ok (VFloat f)
  | VStr s => of_option ValueError (option_map VFloat (float_of_string s))
  end.

Definition astype_float64 (col : column) : result column := mapR to_float64 col.

(** [np.abs(row[row['label']] - row['gold'])] *)
Definition abs_gold_diff (row : Series) : result float :=
  let* score := score_of_row row in
  let* gold := series_getitem row "gold" in
  let* d := cell_sub score gold in
  Ok (float_abs d).

(** The body of the inner loop, for one [name] of [df_label].  In an
    assignment Python evaluates the right-hand side before the key. *)
Definition name_step (df_label : DataFrame) (label : cell)
    (results : gmap string cell) (name : cell) : result (gmap string cell) :=
  if cell_eqb name label then
    let* auc := calculate_auc df_label in
    let* key := str_add "auc_" label in
    Ok (<[key := VFloat auc]> results)
  else
    let* names := df_getitem df_label "name" in
    let df_label_name := mask_select df_label (col_eq names name) in
    let* auc := calculate_auc df_label_name in
    let* key_label := str_add "auc_" label in
    let* key := str_add (key_label +:+ "_") name in
    Ok (<[key := VFloat auc]> results).

(** The body of the outer loop, for one [label]. *)
Definition label_step (df_gold_scored : DataFrame)
    (results : gmap string cell) (label : cell) : result (gmap string cell) :=
  let* labels := df_getitem df_gold_scored "label" in
  let df_label := mask_select df_gold_scored (col_eq labels label) in
  let* names := df_getitem df_label "name" in
  foldR (name_step df_label label) results (unique names).

Definition eval_gold : M (gmap string cell) :=
  (do gold <- getitem "gold";
   do gold64 <- lift (astype_float64 gold);
   run setitem "gold" gold64;
   do df <- this;
   do diffs <- lift (mapR abs_gold_diff (iterrows df));
   run setitem "abs_gold_diff" (map VFloat diffs);
   do diff_col <- getitem "abs_gold_diff";
   do avg_diff <- lift (series_mean diff_col);
   let results := <["avg_diff" := VFloat avg_diff]> (∅ : gmap string cell) in
   do df <- this;
   do auc_all <- lift (calculate_auc df);
   let results := <["auc_all" := VFloat auc_all]> results in
   do labels <- getitem "label";
   lift (foldR (label_step df) results (unique labels)))%frame.

Definition eval_path (FLAGS : Flags) : string := job_dir FLAGS +:+ "/gold_eval.json".

(** [main]: the file system goes in and comes out; what the script
    prints is left out.  The JSON file is written and closed before the
    CSV file is opened. *)
Definition main (FLAGS : Flags) (fs : gmap string file)
  : gmap string file * result unit :=
  match
    (let* df_gold := read_csv fs (gold_path FLAGS) in
     let* model :=
       ModelRunner (job_dir FLAGS) (embeddings_path FLAGS) (labels_flag FLAGS) fs in
     score_gold df_gold model)
  with
  | Raise e => (fs, Raise e)
  | Ok df_gold_scored =>
      match eval_gold df_gold_scored with
      | (_, Raise e) => (fs, Raise e)
      | (df_gold_scored, Ok results) =>
          let results := <["gold_path" := VStr (gold_path FLAGS)]> results in
          match gfile_write fs (eval_path FLAGS) (JsonFile results) with
          | (fs, Raise e) => (fs, Raise e)
          | (fs, Ok _) => gfile_write fs (output_path FLAGS) (CsvFile df_gold_scored)
          end
      end
  end.

(** *** The script read row by row

    The definitions below are not code of the script: they say, over the
    rows of a frame, what the statements of the next part claim. *)

(** The input of [eval_gold] in [main]: the scored frame. *)
Definition scored_input (FLAGS : Flags) (fs : gmap string file) : result DataFrame :=
  let* df_gold := read_csv fs (gold_path FLAGS) in
  let* model :=
    ModelRunner (job_dir FLAGS) (embeddings_path FLAGS) (labels_flag FLAGS) fs in
  score_gold df_gold model.

(** [score_gold] followed by [eval_gold]. *)
Definition pipeline (df_gold : DataFrame) (model : Model)
  : result (DataFrame * gmap string cell) :=
  let* df_gold_scored := score_gold df_gold model in
  match eval_gold df_gold_scored with
  | (df, Ok results) => Ok (df, results)
  | (_, Raise e) => Raise e
  end.

(** The frame once its gold column is [float64]. *)
Definition gold64_frame (df : DataFrame) : result DataFrame :=
  let* gold := df_getitem df "gold" in
  let* gold64 := astype_float64 gold in
  Ok (df_setitem df "gold" gold64).

(** The frame as [eval_gold] has it when it starts on the metrics. *)
Definition prepare (df : DataFrame) : result DataFrame :=
  let* mid := gold64_frame df in
  let* diffs := mapR abs_gold_diff (iterrows mid) in
  Ok (df_setitem mid "abs_gold_diff" (map VFloat diffs)).

Definition row_has (k : string) (v : cell) (row : Series) : bool :=
  match assoc k row with
  | Some c => cell_eqb c v
  | None => false
  end.

Definition gold_is_01 (row : Series) : bool :=
  match assoc "gold" row with
  | Some c => isin01 c
  | None => false
  end.

Definition gold_of_row (row : Series) : cell := default NaN (assoc "gold" row).

(** The AUC of a list of rows: the rows with gold 0 or 1, their scores
    against their gold values. *)
Definition auc_of_rows (rows : list Series) : result float :=
  let kept := List.filter gold_is_01 rows in
  let* y_score := mapR score_of_row kept in
  roc_auc_score (map gold_of_row kept) y_score.

(** The rows of one label, and of one label and name. *)
Definition label_rows (label : cell) (rows : list Series) : list Series :=
  List.filter (row_has "label" label) rows.

Definition label_name_rows (label name : cell) (rows : list Series) : list Series :=
  List.filter (fun r => row_has "label" label r && row_has "name" name r) rows.

(** The rows the inner loop computes an AUC on, and the key it files
    the AUC under, for one label and one name. *)
Definition group_rows (label name : cell) (rows : list Series) : list Series :=
  if cell_eqb name label then label_rows label rows
  else label_name_rows label name rows.

Definition key_of (label name : cell) : result string :=
  if cell_eqb name label then str_add "auc_" label
  else
    let* key_label := str_add "auc_" label in
    str_add (key_label +:+ "_") name.

(** The metrics [eval_gold] computes on the prepared frame. *)
Definition metrics (df : DataFrame) : result (gmap string cell) :=
  let* diff_col := df_getitem df "abs_gold_diff" in
  let* avg_diff := series_mean diff_col in
  let results := <["avg_diff" := VFloat avg_diff]> (∅ : gmap string cell) in
  let* auc_all := calculate_auc df in
  let results := <["auc_all" := VFloat auc_all]> results in
  let* labels := df_getitem df "label" in
  foldR (label_step df) results (unique labels).

(** The entry one turn of the inner loop files, and the entries of one
    turn of the outer loop. *)
Definition name_entry (df_label : DataFrame) (label name : cell)
  : result (string * cell) :=
  if cell_eqb name label then
    let* auc := calculate_auc df_label in
    let* key := str_add "auc_" label in
    Ok (key, VFloat auc)
  else
    let* names := df_getitem df_label "name" in
    let* auc := calculate_auc (mask_select df_label (col_eq names name)) in
    let* key_label := str_add "auc_" label in
    let* key := str_add (key_label +:+ "_") name in
    Ok (key, VFloat auc).

Definition label_entries (df : DataFrame) (label : cell)
  : result (list (string * cell)) :=
  let* labels := df_getitem df "label" in
  let df_label := mask_select df (col_eq labels label) in
  let* names := df_getitem df_label "name" in
  mapR (name_entry df_label label) (unique names).

End Script.

(** ** The statements' own notions

    What the statements about the script say of a row, written from
    their words and without the definitions of the script: the theorems
    compare the script with them. *)

(** A row whose gold value is 0 or 1. *)
Definition gold_zero_or_one (row : Series) : bool :=
  match assoc "gold" row with
  | Some (VInt z) => Z.eqb z 0 || Z.eqb z 1
  | Some (VFloat (FNum q)) => Qeq_bool q 0%Q || Qeq_bool q 1%Q
  | _ => false
  end.

(** The predicted score of a row: the value in the column named by the
    label field of the row.  An integer label names no column and stands
    for a position. *)
Definition predicted_score (row : Series) : result cell :=
  match assoc "label" row with
  | Some (VStr l) => of_option KeyError (assoc l row)
  | Some (VInt z) => series_iloc row z
  | Some (VFloat _) | None => Raise KeyError
  end.

(** The absolute difference between the predicted score of a row and its
    gold value; NaN when either is NaN. *)
Definition abs_difference (row : Series) : result float :=
  let* score := predicted_score row in
  match assoc "gold" row with
  | Some gold =>
      match cell_num score, cell_num gold with
      | Some (FNum s), Some (FNum g) => Ok (FNum (Qabs (s - g)%Q))
      | Some _, Some _ => Ok FNaN
      | _, _ => Raise TypeError
      end
  | None => Raise KeyError
  end.

(** The label of a row finds a cell: it is a string that names a column,
    or an integer that is a position of the row. *)
Definition label_finds (row : Series) : Prop :=
  match assoc "label" row with
  | Some (VStr l) => l ∈ row.*1
  | Some (VInt z) => (- Z.of_nat (length row) <= z < Z.of_nat (length row))%Z
  | _ => False
  end.


(** The arithmetic mean over every entry: one NaN makes it NaN. *)
Definition float_add (a b : float) : float :=
  match a, b with
  | FNum p, FNum q => FNum (p + q)
  | _, _ => FNaN
  end.

Definition mean_every_row (l : list float) : float :=
  match l with
  | [] => FNaN
  | _ =>
      match foldr float_add (FNum 0) l with
      | FNum s => FNum (s / inject_Z (Z.of_nat (length l)))
      | FNaN => FNaN
      end
  end.

(** ** A reference metric and sample data

    [roc_auc_ref] is the ROC AUC in its rank form: the share of
    (positive, negative) pairs that the scores order rightly, a tie
    counting for a half.  Like the library's metric it refuses targets
    that are not binary, targets of a single class and scores that are
    not numbers.  It stands for [roc_auc_score] wherever the script is
    run on concrete data below. *)

Definition pair_credit (p n : Q) : Q :=
  match Qcompare p n with
  | Gt => 1
  | Eq => 1 # 2
  | Lt => 0
  end.

Definition score_num (c : cell) : result Q :=
  match cell_num c with
  | Some (FNum q) => Ok q
  | _ => Raise ValueError
  end.

Definition scores_of_class (cls : Z) (y_true : column) (ys : list Q) : list Q :=
  bool_mask (col_eq y_true (VInt cls)) ys.

Definition roc_auc_ref (y_true y_score : column) : result float :=
  if negb (Nat.eqb (length y_true) (length y_score)) then Raise ValueError
  else if negb (forallb isin01 y_true) then Raise ValueError
  else
    let* ys := mapR score_num y_score in
    let pos := scores_of_class 1 y_true ys in
    let neg := scores_of_class 0 y_true ys in
    match pos, neg with
    | [], _ | _, [] => Raise ValueError
    | _, _ =>
        let credit := Qsum (flat_map (fun p => map (pair_credit p) neg) pos) in
        Ok (FNum (Qred (credit / inject_Z (Z.of_nat (length pos * length neg)))))
    end.

Definition no_float_of_string (s : string) : option float := None.

(** A model with three heads that scores a comment by a fixed table. *)
Definition toy_scores (c : cell) : list float :=
  match c with
  | VStr "Die!" => [FNum (9 # 10); FNum (1 # 10); FNum (1 # 10)]
  | VStr "FU" => [FNum (2 # 10); FNum (8 # 10); FNum (1 # 10)]
  | VStr "Get lost" => [FNum (3 # 10); FNum (6 # 10); FNum (1 # 10)]
  | _ => [FNum (1 # 10); FNum (2 # 10); FNum (3 # 10)]
  end.

Definition toy_model : Model :=
  {| predict := fun text => Ok (map toy_scores text);
     labels := ["threat"; "obscene"; "flirtation"] |}.

Definition toy_runner (job_dir embeddings labels : string) (fs : gmap string file)
  : result Model := Ok toy_model.

(** The gold data of the script's header comment. *)
Definition header_gold : DataFrame :=
  [ ("comment_text", [VStr "..and kill things"; VStr "Die!"; VStr "FU"; VStr "Have an apple"]);
    ("label", [VStr "threat"; VStr "threat"; VStr "obscene"; VStr "flirtation"]);
    ("gold", [VInt 0; VInt 1; VInt 1; VInt 0]);
    ("_unit_id", [VInt 15190; VInt 15193; VInt 15089; VInt 15789]) ].

(** Gold data with a [name] column: two labels, each with rows of both
    classes; [threat] has the subcategory [direct]. *)
Definition sample_gold : DataFrame :=
  [ ("comment_text",
      [VStr "..and kill things"; VStr "Die!"; VStr "FU"; VStr "Have an apple";
       VStr "Get lost"; VStr "Nice day"]);
    ("label",
      [VStr "threat"; VStr "threat"; VStr "obscene"; VStr "obscene";
       VStr "threat"; VStr "threat"]);
    ("gold", [VInt 0; VInt 1; VInt 1; VInt 0; VInt 1; VInt 0]);
    ("_unit_id", [VInt 15190; VInt 15193; VInt 15089; VInt 15789; VInt 15790; VInt 15791]);
    ("name",
      [VStr "threat"; VStr "threat"; VStr "obscene"; VStr "obscene";
       VStr "direct"; VStr "direct"]) ].

Definition sample_flags : Flags :=
  {| gold_path := "gold.csv";
     output_path := "gold_scored.csv";
     job_dir := "job";
     labels_flag := "threat,obscene,flirtation";
     embeddings_path := "glove.txt" |}.

(** No row of the frame other than those of [label] and [name] files its
    AUC under [key]. *)
Definition only_writer (df : DataFrame) (key : string) (label name : cell) : Prop :=
  forall row l n,
    row ∈ iterrows df ->
    assoc "label" row = Some l -> assoc "name" row = Some n ->
    key_of l n = Ok key -> l = label /\ n = name.

(** The base of the results, before the loops. *)
Definition base_results (avg_diff auc_all : float) : gmap string cell :=
  <["auc_all" := VFloat auc_all]> (<["avg_diff" := VFloat avg_diff]> ∅).



(** The frames got from [df] by boolean-mask selections: all the frames
    [calculate_auc] is called on and looks scores up in. *)
Inductive selection_of (df : DataFrame) : DataFrame -> Prop :=
  | selection_self : selection_of df df
  | selection_mask sub m : selection_of df sub -> selection_of df (mask_select sub m).

(** Every label cell names a head of the model. *)
Definition labels_match (model : Model) (label_col : column) : Prop :=
  Forall (fun c => exists l, c = VStr l /\ l ∈ labels model) label_col.

(** *** More sample data *)

(** A model without the head [flirtation]. *)
Definition two_head_model : Model :=
  {| predict := fun text => Ok (map (fun c => take 2 (toy_scores c)) text);
     labels := ["threat"; "obscene"] |}.

(** One label whose names are two subcategories, never the label. *)
Definition subcategory_gold : DataFrame :=
  [ ("comment_text",
      [VStr "..and kill things"; VStr "Die!"; VStr "Get lost"; VStr "Nice day"]);
    ("label", [VStr "threat"; VStr "threat"; VStr "threat"; VStr "threat"]);
    ("gold", [VInt 0; VInt 1; VInt 1; VInt 0]);
    ("_unit_id", [VInt 1; VInt 2; VInt 3; VInt 4]);
    ("name", [VStr "direct"; VStr "direct"; VStr "indirect"; VStr "indirect"]) ].

(** A row without a gold value. *)
Definition missing_gold : DataFrame :=
  [ ("comment_text", [VStr "..and kill things"; VStr "Die!"; VStr "Nice day"]);
    ("label", [VStr "threat"; VStr "threat"; VStr "threat"]);
    ("gold", [VFloat (FNum 0); VFloat (FNum 1); NaN]);
    ("_unit_id", [VInt 1; VInt 2; VInt 3]);
    ("name", [VStr "threat"; VStr "threat"; VStr "threat"]) ].

(** Gold data whose label is a column of the gold file and no head of
    the model. *)
Definition unit_label_gold : DataFrame :=
  [ ("comment_text", [VStr "..and kill things"; VStr "Die!"]);
    ("label", [VStr "_unit_id"; VStr "_unit_id"]);
    ("gold", [VInt 0; VInt 1]);
    ("_unit_id", [VInt 15190; VInt 15193]);
    ("name", [VStr "_unit_id"; VStr "_unit_id"]) ].

(** A scored frame with gold values other than 0 and 1: a grade between
    them, a missing value and a 2. *)
Definition graded_scored : DataFrame :=
  [ ("threat", [VFloat (FNum (6 # 10)); VFloat (FNum (9 # 10)); VFloat (FNum (8 # 10));
                VFloat (FNum (1 # 10)); VFloat (FNum (5 # 10)); VFloat (FNum (3 # 10))]);
    ("comment_text", [VStr "a"; VStr "b"; VStr "c"; VStr "d"; VStr "e"; VStr "f"]);
    ("label", [VStr "threat"; VStr "threat"; VStr "threat";
               VStr "threat"; VStr "threat"; VStr "threat"]);
    ("gold", [VFloat (FNum 0); VFloat (FNum 1); VFloat (FNum (5 # 10));
              NaN; VFloat (FNum 1); VFloat (FNum 2)]) ].

(** The output path cannot be written, every other path can. *)
Definition csv_locked (path : string) : result unit :=
  if String.eqb path "gold_scored.csv" then Raise PermissionDeniedError else Ok tt.

(** A scored frame in which label [a] with name [b_c] and label [a_b]
    with name [c] meet on the key [auc_a_b_c]. *)
Definition colliding_scored : DataFrame :=
  [ ("a", [VFloat (FNum (1 # 10)); VFloat (FNum (9 # 10));
           VFloat (FNum (5 # 10)); VFloat (FNum (5 # 10))]);
    ("a_b", [VFloat (FNum (5 # 10)); VFloat (FNum (5 # 10));
             VFloat (FNum (9 # 10)); VFloat (FNum (1 # 10))]);
    ("comment_text", [VStr "w"; VStr "x"; VStr "y"; VStr "z"]);
    ("label", [VStr "a"; VStr "a"; VStr "a_b"; VStr "a_b"]);
    ("gold", [VInt 0; VInt 1; VInt 0; VInt 1]);
    ("name", [VStr "b_c"; VStr "b_c"; VStr "c"; VStr "c"]) ].

Definition sample_fs (df_gold : DataFrame) : gmap string file :=
  {[ "gold.csv" := CsvFile df_gold ]}.

(** *** The script run on the sample data, with the reference metric *)

Definition run_score (df_gold : DataFrame) (model : Model) : DataFrame :=
  match score_gold df_gold model with
  | Ok df => df
  | Raise _ => []
  end.

Definition ref_eval (df : DataFrame) : DataFrame * result (gmap string cell) :=
  eval_gold roc_auc_ref no_float_of_string df.

(** Every path can be written. *)
Definition all_writable (path : string) : result unit := Ok tt.

Definition ref_main (FLAGS : Flags) (fs : gmap string file)
  : gmap string file * result unit :=
  main roc_auc_ref no_float_of_string toy_runner all_writable FLAGS fs.

Definition results_of (r : result (gmap string cell)) : gmap string cell :=
  match r with
  | Ok results => results
  | Raise _ => ∅
  end.

Definition sample_scored : DataFrame :=
  Eval vm_compute in run_score sample_gold toy_model.

Definition sample_prepared : DataFrame :=
  Eval vm_compute in (ref_eval sample_scored).1.

Definition sample_results : gmap string cell := results_of (ref_eval sample_scored).2.

(** The header's gold data with a [name] column that repeats the label:
    the labels [obscene] and [flirtation] have one row each. *)
Definition header_named_gold : DataFrame :=
  header_gold ++
  [ ("name", [VStr "threat"; VStr "threat"; VStr "obscene"; VStr "flirtation"]) ].



Definition colliding_prepared : DataFrame :=
  Eval vm_compute in (ref_eval colliding_scored).1.

Definition colliding_results : gmap string cell :=
  results_of (ref_eval colliding_scored).2.

Definition missing_scored : DataFrame :=
  Eval vm_compute in run_score missing_gold toy_model.

(** Gold data where every row is named after its label. *)
Definition plain_gold : DataFrame :=
  [ ("comment_text", [VStr "..and kill things"; VStr "Die!"; VStr "FU"; VStr "Have an apple"]);
    ("label", [VStr "threat"; VStr "threat"; VStr "obscene"; VStr "obscene"]);
    ("gold", [VInt 0; VInt 1; VInt 1; VInt 0]);
    ("_unit_id", [VInt 15190; VInt 15193; VInt 15089; VInt 15789]);
    ("name", [VStr "threat"; VStr "threat"; VStr "obscene"; VStr "obscene"]) ].

Definition plain_scored : DataFrame :=
  Eval vm_compute in run_score plain_gold toy_model.

Definition plain_prepared : DataFrame :=
  Eval vm_compute in (ref_eval plain_scored).1.

Definition plain_results : gmap string cell := results_of (ref_eval plain_scored).2.

(** The header's gold data scored by the model without [flirtation]. *)
Definition two_head_scored : DataFrame :=
  Eval vm_compute in run_score header_gold two_head_model.

Definition two_head_mid : DataFrame :=
  Eval vm_compute in (ref_eval two_head_scored).1.

Definition header_scored : DataFrame :=
  Eval vm_compute in run_score header_gold toy_model.

(** *** Notions used in the proofs *)

(** Whether a string holds an underscore. *)
Fixpoint has_underscore (s : string) : bool :=
  match s with
  | EmptyString => false
  | String c s' => Ascii.eqb c "_"%char || has_underscore s'
  end.

(** The dictionary after a list of assignments. *)
Definition insert_all (kvs : list (string * cell)) (m : gmap string cell)
  : gmap string cell :=
  fold_left (fun m kv => <[kv.1 := kv.2]> m) kvs m.

(** Every column has [n] cells. *)
Definition cols_len (n : nat) (df : DataFrame) : Prop :=
  Forall (fun kc => length kc.2 = n) df.

Definition frame_ok (df : DataFrame) : Prop := cols_len (nrows df) df.

(** A row of a concrete frame is one of the rows listed. *)
Ltac each_row Hrow :=
  apply list_elem_of_In in Hrow; vm_compute in Hrow;
  repeat (destruct Hrow as [<-|Hrow]); [..|destruct Hrow].

(** [only_writer] on a concrete frame: every row either has the label
    and name asked for, or files under another key. *)
Ltac solve_only_writer :=
  let row := fresh "row" in
  let l := fresh "l" in
  let n := fresh "n" in
  let Hrow := fresh "Hrow" in
  let Hl := fresh "Hl" in
  let Hn := fresh "Hn" in
  let Hkey := fresh "Hkey" in
  intros row l n Hrow Hl Hn Hkey; each_row Hrow;
  vm_compute in Hl; vm_compute in Hn;
  injection Hl as <-; injection Hn as <-;
  first [ by split | by vm_compute in Hkey ].

(** * Properties *)

(** ** The exception monad *)

Lemma rbind_ok {A B} (m : result A) (k : A -> result B) b :
  rbind m k = Ok b -> exists a, m = Ok a /\ k a = Ok b.
Proof. destruct m as [a|e]; simpl; [eauto | discriminate]. Qed.

Lemma rbind_raises_l {A B} (m : result A) (k : A -> result B) :
  raises m -> raises (rbind m k).
Proof. intros [e ->]. by exists e. Qed.

Lemma not_raises_ok {A} (r : result A) a : r = Ok a -> ~ raises r.
Proof. intros -> [e He]. discriminate. Qed.

Lemma ok_or_raises {A} (r : result A) : (exists a, r = Ok a) \/ raises r.
Proof. destruct r as [a|e]; [left | right]; eauto. by exists e. Qed.

Section ResultFacts.
Context {A B : Type}.
Implicit Types (f : A -> result B) (l : list A).

Lemma mapR_length f l ys : mapR f l = Ok ys -> length ys = length l.
Proof.
  revert ys. induction l as [|x l IH]; simpl; intros ys H.
  - by injection H as <-.
  - apply rbind_ok in H as (y & _ & H). apply rbind_ok in H as (ys' & Hys & H).
    injection H as <-. simpl. f_equal. by apply IH.
Qed.

Lemma mapR_elem f l ys y :
  mapR f l = Ok ys -> y ∈ ys <-> exists x, x ∈ l /\ f x = Ok y.
Proof.
  revert ys. induction l as [|x l IH]; simpl; intros ys H.
  - injection H as <-. split; [by intros ?%elem_of_nil|].
    by intros (? & ?%elem_of_nil & _).
  - apply rbind_ok in H as (y0 & Hy0 & H). apply rbind_ok in H as (ys' & Hys & H).
    injection H as <-. rewrite elem_of_cons, (IH _ Hys). split.
    + intros [->|(x' & Hx' & Hf)]; [exists x | exists x']; rewrite elem_of_cons; auto.
    + intros (x' & [->|Hx']%elem_of_cons & Hf); [left; congruence | right; eauto].
Qed.

Lemma mapR_ok_elem f l ys x :
  mapR f l = Ok ys -> x ∈ l -> exists y, f x = Ok y /\ y ∈ ys.
Proof.
  revert ys. induction l as [|x' l IH]; simpl; intros ys H Hx.
  - by apply elem_of_nil in Hx.
  - apply rbind_ok in H as (y0 & Hy0 & H). apply rbind_ok in H as (ys' & Hys & H).
    injection H as <-. apply elem_of_cons in Hx as [->|Hx].
    + exists y0. split; [done | left].
    + destruct (IH _ Hys Hx) as (y & Hy & Hin). exists y. split; [done | by right].
Qed.

Lemma mapR_raises f l x : x ∈ l -> raises (f x) -> raises (mapR f l).
Proof.
  intros Hx Hf. induction l as [|x' l IH]; [by apply elem_of_nil in Hx|].
  simpl. apply elem_of_cons in Hx as [<-|Hx].
  - by apply rbind_raises_l.
  - destruct (f x') as [y|e]; simpl; [|by exists e].
    apply rbind_raises_l. by apply IH.
Qed.

Lemma mapR_total f l :
  (forall x, x ∈ l -> exists y, f x = Ok y) -> exists ys, mapR f l = Ok ys.
Proof.
  induction l as [|x l IH]; simpl; intros H; [eauto|].
  destruct (H x) as [y ->]; [left|]. simpl.
  destruct IH as [ys ->]; [intros; apply H; by right|]. simpl. eauto.
Qed.

Lemma mapR_ext f g l : (forall x, x ∈ l -> f x = g x) -> mapR f l = mapR g l.
Proof.
  induction l as [|x l IH]; simpl; intros H; [done|].
  rewrite (H x), IH; [done | intros; apply H; by right | left].
Qed.

Lemma mapR_pure (h : A -> B) l : mapR (fun x => Ok (h x)) l = Ok (map h l).
Proof. induction l as [|x l IH]; simpl; [done|]. by rewrite IH. Qed.

End ResultFacts.

Lemma mapR_map {A B C} (g : A -> B) (f : B -> result C) (l : list A) :
  mapR f (map g l) = mapR (fun x => f (g x)) l.
Proof. induction l as [|x l IH]; simpl; [done|]. by rewrite IH. Qed.


(** A loop whose body files one entry is the list of its entries. *)
Lemma foldR_entries {A} (f : A -> result (string * cell)) (l : list A) m :
  foldR (fun m x => let* kv := f x in Ok (<[kv.1 := kv.2]> m)) m l =
  let* kvs := mapR f l in Ok (insert_all kvs m).
Proof.
  revert m. induction l as [|x l IH]; intros m; simpl; [done|].
  destruct (f x) as [kv|e]; simpl; [|done]. rewrite IH.
  by destruct (mapR f l).
Qed.

(** A loop whose body files a batch of entries is the list of its batches. *)
Lemma foldR_batches {A} (f : A -> result (list (string * cell))) (l : list A) m :
  foldR (fun m x => let* kvs := f x in Ok (insert_all kvs m)) m l =
  let* kvss := mapR f l in Ok (insert_all (concat kvss) m).
Proof.
  revert m. induction l as [|x l IH]; intros m; simpl; [done|].
  destruct (f x) as [kvs|e]; simpl; [|done]. rewrite IH.
  destruct (mapR f l); simpl; [|done].
  unfold insert_all. by rewrite fold_left_app.
Qed.

Lemma insert_all_notin kvs m k :
  k ∉ kvs.*1 -> insert_all kvs m !! k = m !! k.
Proof.
  revert m. induction kvs as [|[k' v] kvs IH]; intros m Hk; simpl; [done|].
  rewrite fmap_cons, not_elem_of_cons in Hk. destruct Hk as [Hne Hk].
  unfold insert_all in *. simpl. rewrite IH by done.
  by rewrite lookup_insert_ne.
Qed.

(** An assigned key holds the one value it was ever assigned. *)
Lemma insert_all_unique kvs m k v :
  (k, v) ∈ kvs -> (forall v', (k, v') ∈ kvs -> v' = v) ->
  insert_all kvs m !! k = Some v.
Proof.
  revert m. induction kvs as [|[k' v'] kvs IH]; intros m Hin Hall.
  - by apply elem_of_nil in Hin.
  - unfold insert_all in *. simpl.
    destruct (decide (k ∈ kvs.*1)) as [Hk|Hk].
    + apply list_elem_of_fmap in Hk as ([k2 v2] & -> & Hk). simpl in *.
      assert (v2 = v) as -> by (apply Hall; by right).
      apply IH; [done|]. intros; apply Hall; by right.
    + apply elem_of_cons in Hin as [[= <- <-]|Hin].
      * fold (insert_all kvs (<[k:=v]> m)). rewrite insert_all_notin by done.
        by rewrite lookup_insert_eq.
      * destruct Hk. apply list_elem_of_fmap. by exists (k, v).
Qed.

Lemma insert_all_is_Some kvs m k :
  is_Some (insert_all kvs m !! k) -> k ∈ kvs.*1 \/ is_Some (m !! k).
Proof.
  destruct (decide (k ∈ kvs.*1)) as [?|Hk]; [by left|].
  rewrite insert_all_notin by done. by right.
Qed.

(** ** Columns, rows and selections *)

Lemma assoc_map_snd {V W} (f : V -> W) k (l : list (string * V)) :
  assoc k (map (fun kc => (kc.1, f kc.2)) l) = f <$> assoc k l.
Proof.
  induction l as [|[k' v] l IH]; simpl; [done|]. by destruct (String.eqb k k').
Qed.

Lemma assoc_Some_elem {V} k (l : list (string * V)) v :
  assoc k l = Some v -> (k, v) ∈ l.
Proof.
  induction l as [|[k' v'] l IH]; simpl; [done|].
  destruct (String.eqb_spec k k') as [->|_].
  - intros [= ->]. left.
  - intros H. right. by apply IH.
Qed.

Lemma assoc_is_Some {V} k (l : list (string * V)) :
  is_Some (assoc k l) <-> k ∈ l.*1.
Proof.
  induction l as [|[k' v'] l IH]; simpl.
  - split; [by intros [? ?] | by intros ?%elem_of_nil].
  - rewrite elem_of_cons. destruct (String.eqb_spec k k') as [->|Hne]; simpl.
    + split; eauto.
    + rewrite IH. split; [by right | by intros [?|?]].
Qed.

Lemma assoc_None {V} k (l : list (string * V)) :
  assoc k l = None <-> k ∉ l.*1.
Proof. rewrite <- assoc_is_Some, eq_None_not_Some. done. Qed.

Lemma assoc_app_l {V} k (l1 l2 : list (string * V)) v :
  assoc k l1 = Some v -> assoc k (l1 ++ l2) = Some v.
Proof.
  induction l1 as [|[k' v'] l1 IH]; simpl; [done|]. by destruct (String.eqb k k').
Qed.

Lemma assoc_app_r {V} k (l1 l2 : list (string * V)) :
  assoc k l1 = None -> assoc k (l1 ++ l2) = assoc k l2.
Proof.
  induction l1 as [|[k' v'] l1 IH]; simpl; [done|]. by destruct (String.eqb k k').
Qed.

Lemma wf_frame_ok df : wf_frame df = true -> frame_ok df.
Proof.
  unfold wf_frame, frame_ok, cols_len. intros [_ H]%andb_prop.
  apply Forall_forall. intros kc Hkc%list_elem_of_In.
  rewrite forallb_forall in H. by apply Nat.eqb_eq, H.
Qed.

Lemma wf_frame_NoDup df : wf_frame df = true -> NoDup (columns df).
Proof. intros [H _]%andb_prop. by apply bool_decide_eq_true in H. Qed.

Lemma cols_len_nrows n df : cols_len n df -> df <> [] -> nrows df = n.
Proof. destruct df as [|[k c] df]; [done|]. by intros [H _]%Forall_cons. Qed.

Lemma cols_len_assoc n df k col : cols_len n df -> assoc k df = Some col -> length col = n.
Proof.
  intros H Hk%assoc_Some_elem. unfold cols_len in H.
  rewrite Forall_forall in H. by apply (H (k, col)).
Qed.

Lemma frame_ok_assoc df k col : frame_ok df -> assoc k df = Some col -> length col = nrows df.
Proof. apply cols_len_assoc. Qed.

Lemma cols_len_tails n df : cols_len (S n) df -> cols_len n (tails df).
Proof.
  unfold cols_len, tails. intros H. apply Forall_fmap. eapply Forall_impl; [done|].
  intros [k [|c col]]; simpl; [done | by intros [= ->]].
Qed.

Lemma columns_mask_select df m : columns (mask_select df m) = columns df.
Proof. unfold columns, mask_select. rewrite map_map. done. Qed.

Lemma assoc_mask_select df m k :
  assoc k (mask_select df m) = bool_mask m <$> assoc k df.
Proof. apply (assoc_map_snd (bool_mask m)). Qed.

Lemma assoc_heads df k : assoc k (heads df) = hd NaN <$> assoc k df.
Proof. apply (assoc_map_snd (hd NaN)). Qed.

Lemma assoc_tails df k : assoc k (tails df) = tl <$> assoc k df.
Proof. apply (assoc_map_snd tl). Qed.

(** The cells of column [k] are the [k] entries of the rows, in order. *)
Lemma iterrows_n_assoc n df k col :
  cols_len n df -> assoc k df = Some col ->
  map (assoc k) (iterrows_n n df) = map Some col.
Proof.
  revert df col. induction n as [|n IH]; intros df col Hlen Hk.
  - apply (cols_len_assoc _ _ _ _ Hlen) in Hk. by destruct col.
  - pose proof (cols_len_assoc _ _ _ _ Hlen Hk) as Hcol.
    destruct col as [|c col]; [done|]. simpl.
    rewrite assoc_heads, Hk. simpl. f_equal.
    apply IH; [by apply cols_len_tails|]. by rewrite assoc_tails, Hk.
Qed.

Lemma iterrows_n_assoc_None n df k :
  assoc k df = None -> Forall (fun row => assoc k row = None) (iterrows_n n df).
Proof.
  revert df. induction n as [|n IH]; intros df Hk; simpl; [constructor|].
  constructor.
  - by rewrite assoc_heads, Hk.
  - apply IH. by rewrite assoc_tails, Hk.
Qed.

Lemma iterrows_n_length n df : length (iterrows_n n df) = n.
Proof. revert df. induction n as [|n IH]; intros df; simpl; [done|]. by rewrite IH. Qed.

Lemma iterrows_n_keys n df :
  Forall (fun row => row.*1 = columns df) (iterrows_n n df).
Proof.
  revert df. induction n as [|n IH]; intros df; simpl; constructor.
  - unfold heads, columns. rewrite <- list_fmap_compose. done.
  - eapply Forall_impl; [apply IH|]. intros row ->. unfold tails, columns.
    by rewrite map_map.
Qed.

Lemma iterrows_assoc df k col :
  frame_ok df -> assoc k df = Some col -> map (assoc k) (iterrows df) = map Some col.
Proof. apply iterrows_n_assoc. Qed.

Lemma iterrows_length df : length (iterrows df) = nrows df.
Proof. apply iterrows_n_length. Qed.

(** *** Boolean masks *)

Lemma bool_mask_nil_r {A} (m : list bool) : bool_mask m (@nil A) = [].
Proof. by destruct m. Qed.

Lemma bool_mask_map {A B} (f : A -> B) m (l : list A) :
  bool_mask m (map f l) = map f (bool_mask m l).
Proof.
  revert l. induction m as [|b m IH]; intros [|x l]; simpl; try done.
  destruct b; simpl; by rewrite IH.
Qed.

Lemma bool_mask_filter {A} (f : A -> bool) (l : list A) :
  bool_mask (map f l) l = List.filter f l.
Proof. induction l as [|x l IH]; simpl; [done|]. destruct (f x); by rewrite IH. Qed.

Lemma bool_mask_length {A} m (l : list A) :
  length (bool_mask m l) = length (bool_mask m (replicate (length l) ())).
Proof.
  revert l. induction m as [|b m IH]; intros [|x l]; simpl; try done.
  destruct b; simpl; by rewrite IH.
Qed.

Lemma bool_mask_elem {A} m (l : list A) x : x ∈ bool_mask m l -> x ∈ l.
Proof.
  revert l. induction m as [|b m IH]; intros [|y l]; simpl;
    try (by intros ?%elem_of_nil).
  destruct b; rewrite ?elem_of_cons; [intros [?|?]; [by left | right; by apply IH]|].
  intros ?. right. by apply IH.
Qed.

Lemma cols_len_mask_select n df m :
  cols_len n df -> cols_len (length (bool_mask m (replicate n ()))) (mask_select df m).
Proof.
  unfold cols_len, mask_select. intros H. apply Forall_fmap.
  eapply Forall_impl; [done|]. intros [k c]; simpl. intros <-. apply bool_mask_length.
Qed.

Lemma mask_select_true df m n :
  cols_len (S n) df ->
  heads (mask_select df (true :: m)) = heads df /\
  tails (mask_select df (true :: m)) = mask_select (tails df) m.
Proof.
  unfold cols_len, heads, tails, mask_select. induction 1 as [|[k c] df Hc _ [IH1 IH2]].
  - done.
  - destruct c as [|x c]; [done|]. simpl in *. by rewrite IH1, IH2.
Qed.

Lemma mask_select_false df m n :
  cols_len (S n) df -> mask_select df (false :: m) = mask_select (tails df) m.
Proof.
  unfold cols_len, tails, mask_select. induction 1 as [|[k c] df Hc _ IH].
  - done.
  - destruct c as [|x c]; [done|]. simpl in *. by rewrite IH.
Qed.

Lemma iterrows_n_mask m n df :
  cols_len n df ->
  iterrows_n (length (bool_mask m (replicate n ()))) (mask_select df m) =
  bool_mask m (iterrows_n n df).
Proof.
  revert n df. induction m as [|b m IH]; intros [|n] df Hlen; simpl; try done.
  destruct b; simpl.
  - destruct (mask_select_true df m n Hlen) as [-> ->].
    f_equal. apply IH. by apply cols_len_tails.
  - rewrite (mask_select_false df m n Hlen). apply IH. by apply cols_len_tails.
Qed.

Lemma frame_ok_mask_select df m : frame_ok df -> frame_ok (mask_select df m).
Proof.
  intros H. unfold frame_ok.
  destruct df as [|[k c] df]; [constructor|].
  pose proof (cols_len_mask_select _ _ m H) as H'.
  rewrite (cols_len_nrows _ _ H'); done.
Qed.

(** The rows of a selection are the selected rows. *)
Lemma iterrows_mask_select df m :
  frame_ok df -> iterrows (mask_select df m) = bool_mask m (iterrows df).
Proof.
  intros H. destruct df as [|[k c] df].
  - unfold iterrows. simpl. by rewrite bool_mask_nil_r.
  - unfold iterrows at 1.
    rewrite (cols_len_nrows _ _ (cols_len_mask_select _ _ m H)) by done.
    by apply iterrows_n_mask.
Qed.

(** Selecting by a test on one column keeps the rows that pass the test. *)
Lemma iterrows_select df k col (f : cell -> bool) :
  frame_ok df -> assoc k df = Some col ->
  iterrows (mask_select df (map f col)) =
  List.filter (fun row => match assoc k row with Some c => f c | None => false end)
    (iterrows df).
Proof.
  intros Hok Hk. rewrite iterrows_mask_select by done.
  rewrite <- bool_mask_filter. f_equal.
  pose proof (iterrows_assoc df k col Hok Hk) as Hrows.
  transitivity (map (fun o : option cell => match o with Some c => f c | None => false end)
                  (map Some col)).
  - by rewrite map_map.
  - rewrite <- Hrows, map_map. done.
Qed.

Lemma iterrows_column df k col :
  frame_ok df -> assoc k df = Some col ->
  map (fun row => default NaN (assoc k row)) (iterrows df) = col.
Proof.
  intros Hok Hk.
  transitivity (map (default NaN) (map (assoc k) (iterrows df))).
  - by rewrite map_map.
  - rewrite (iterrows_assoc df k col Hok Hk), map_map. apply map_id.
Qed.

(** *** Column assignment *)

Lemma assoc_setitem_eq df k col : assoc k (df_setitem df k col) = Some col.
Proof.
  induction df as [|[k' c] df IH]; simpl.
  - by rewrite String.eqb_refl.
  - destruct (String.eqb_spec k k') as [->|Hne]; simpl.
    + by rewrite String.eqb_refl.
    + by apply String.eqb_neq in Hne as ->.
Qed.

Lemma assoc_setitem_ne df k k' col :
  k' <> k -> assoc k' (df_setitem df k col) = assoc k' df.
Proof.
  intros Hne. induction df as [|[k0 c] df IH]; simpl.
  - by apply String.eqb_neq in Hne as ->.
  - destruct (String.eqb_spec k k0) as [->|Hk]; simpl.
    + by apply String.eqb_neq in Hne as ->.
    + by rewrite IH.
Qed.

Lemma columns_setitem_in df k col :
  k ∈ columns df -> columns (df_setitem df k col) = columns df.
Proof.
  induction df as [|[k' c] df IH]; simpl; [by intros ?%elem_of_nil|].
  destruct (String.eqb_spec k k') as [->|Hk]; simpl; [done|].
  intros [?|Hin]%elem_of_cons; [done|]. f_equal. by apply IH.
Qed.

Lemma columns_setitem_notin df k col :
  k ∉ columns df -> columns (df_setitem df k col) = columns df ++ [k].
Proof.
  induction df as [|[k' c] df IH]; simpl; [done|].
  intros [Hne Hin]%not_elem_of_cons.
  apply String.eqb_neq in Hne as ->. simpl. f_equal. by apply IH.
Qed.

Lemma cols_len_setitem n df k col :
  cols_len n df -> length col = n -> cols_len n (df_setitem df k col).
Proof.
  unfold cols_len. intros H Hcol. induction H as [|[k' c] df Hc H IH]; simpl.
  - by repeat constructor.
  - destruct (String.eqb k k'); by constructor.
Qed.

Lemma df_setitem_not_nil df k col : df_setitem df k col <> [].
Proof. destruct df as [|[k' c] df]; simpl; [done|]. by destruct (String.eqb k k'). Qed.

Lemma frame_ok_setitem df k col :
  frame_ok df -> length col = nrows df -> df <> [] ->
  frame_ok (df_setitem df k col) /\ nrows (df_setitem df k col) = nrows df.
Proof.
  intros Hok Hcol Hne.
  pose proof (cols_len_setitem _ _ k col Hok Hcol) as H.
  pose proof (cols_len_nrows _ _ H (df_setitem_not_nil df k col)) as Hn.
  split; [|done]. unfold frame_ok. by rewrite Hn.
Qed.

Lemma assoc_not_nil {V} k (l : list (string * V)) v : assoc k l = Some v -> l <> [].
Proof. by destruct l. Qed.

(** *** [unique] *)

Lemma filter_elem {A} (f : A -> bool) (l : list A) x :
  x ∈ List.filter f l <-> x ∈ l /\ f x = true.
Proof. rewrite !list_elem_of_In. apply filter_In. Qed.

Lemma unique_elem col c : c ∈ unique col -> c ∈ col.
Proof.
  induction col as [|d col IH]; simpl; [done|].
  rewrite !elem_of_cons, filter_elem. intros [->|[H _]]; auto.
Qed.

Lemma cell_eqb_str c s : cell_eqb c (VStr s) = true -> c = VStr s.
Proof.
  destruct c as [z|[q|]|t]; simpl; try done. by intros ->%String.eqb_eq.
Qed.

Lemma cell_eqb_str_l c s : cell_eqb (VStr s) c = true -> c = VStr s.
Proof.
  destruct c as [z|[q|]|t]; simpl; try done. by intros ->%String.eqb_eq.
Qed.

Lemma cell_eqb_str_refl s : cell_eqb (VStr s) (VStr s) = true.
Proof. apply String.eqb_refl. Qed.

Lemma cell_same_str c s : cell_same c (VStr s) = true -> c = VStr s.
Proof.
  unfold cell_same. intros [H|[_ H]%andb_prop]%orb_prop; [|done].
  by apply cell_eqb_str.
Qed.

(** A string that occurs in a column is among its distinct values. *)
Lemma unique_str col s : VStr s ∈ col -> VStr s ∈ unique col.
Proof.
  induction col as [|d col IH]; simpl; [done|].
  rewrite !elem_of_cons, filter_elem. intros [<-|Hin]; [by left|].
  destruct (cell_same d (VStr s)) eqn:Hd.
  - left. symmetry. by apply cell_same_str.
  - right. split; [by apply IH | done].
Qed.

Lemma unique_not_nil col : col <> [] -> unique col <> [].
Proof. by destruct col. Qed.

Lemma filter_filter {A} (f g : A -> bool) (l : list A) :
  List.filter g (List.filter f l) = List.filter (fun x => f x && g x) l.
Proof.
  induction l as [|x l IH]; simpl; [done|].
  destruct (f x); simpl; [|done]. destruct (g x); by rewrite IH.
Qed.

Lemma foldR_ext {A S} (f g : S -> A -> result S) (l : list A) s :
  (forall s x, f s x = g s x) -> foldR f s l = foldR g s l.
Proof.
  intros H. revert s. induction l as [|x l IH]; intros s; simpl; [done|].
  rewrite H. destruct (g s x); simpl; [apply IH | done].
Qed.

Lemma series_mean_floats (fs : list float) :
  series_mean (map VFloat fs) = Ok (mean_of (nan_free fs)).
Proof.
  unfold series_mean. rewrite mapR_map. simpl.
  by rewrite (mapR_pure (fun f : float => f)), map_id.
Qed.

Lemma mean_every_row_nan_free (fs : list float) :
  Forall (fun f => is_nan f = false) fs ->
  mean_of (nan_free fs) = mean_every_row fs.
Proof.
  intros H.
  assert (length (nan_free fs) = length fs /\
          foldr float_add (FNum 0) fs = FNum (Qsum (nan_free fs))) as [Hlen Hsum].
  { induction H as [|[q|] fs Hq H [IH1 IH2]]; simpl; [done| |done].
    split; [by rewrite IH1|]. by rewrite IH2. }
  unfold mean_of, mean_every_row. rewrite Hsum, <- Hlen.
  destruct fs as [|[q|] fs]; simpl in *; done.
Qed.

(** ** The script *)

Section Properties.

Variable roc_auc_score : column -> column -> result float.
Variable float_of_string : string -> option float.
Variable ModelRunner : string -> string -> string -> gmap string file -> result Model.
Variable open_w : string -> result unit.

(** [calculate_auc] on a frame is the AUC of its rows. *)
Lemma calculate_auc_as_rows df :
  frame_ok df ->
  calculate_auc roc_auc_score df =
  match assoc "gold" df with
  | Some _ => auc_of_rows roc_auc_score (iterrows df)
  | None => Raise KeyError
  end.
Proof.
  intros Hok. unfold calculate_auc, df_getitem.
  destruct (assoc "gold" df) as [gold|] eqn:Hgold; simpl; [|done].
  assert (iterrows (mask_select df (map isin01 gold)) =
          List.filter gold_is_01 (iterrows df)) as Hsel
    by apply (iterrows_select df "gold" gold isin01 Hok Hgold).
  rewrite Hsel. unfold auc_of_rows.
  destruct (mapR score_of_row _) as [y_score|e]; simpl; [|done].
  rewrite assoc_mask_select, Hgold. simpl. f_equal.
  rewrite <- Hsel, iterrows_mask_select by done.
  unfold gold_of_row. rewrite <- bool_mask_map.
  f_equal. symmetry. by apply iterrows_column.
Qed.

(** The script's filter, score and difference are the statements' own. *)
Lemma gold_is_01_spec row : gold_is_01 row = gold_zero_or_one row.
Proof using.
clear.
unfold gold_is_01, gold_zero_or_one, isin01.
destruct (assoc "gold" row) as [[z|[q|]|s]|]; try done.
unfold cell_eqb, cell_num, Qeq_bool. simpl. by rewrite !Z.mul_1_r.
Qed.

Lemma score_of_row_spec row : score_of_row row = predicted_score row.
Proof using.
clear.
unfold score_of_row, predicted_score, series_getitem.
by destruct (assoc "label" row) as [[z|f|s]|].
Qed.

Lemma abs_gold_diff_spec row : abs_gold_diff row = abs_difference row.
Proof using.
clear.
unfold abs_gold_diff, abs_difference. rewrite score_of_row_spec.
destruct (predicted_score row) as [score|e]; simpl; [|done].
unfold series_getitem. destruct (assoc "gold" row) as [gold|]; simpl; [|done].
unfold cell_sub.
by destruct (cell_num score) as [[x|]|], (cell_num gold) as [[y|]|].
Qed.

(** C1.  On every frame [calculate_auc] computes the AUC over the rows
    whose gold value is 0 or 1 and over no other row: it is the metric
    applied to the gold values and to the predicted scores (the cell in
    the column named by the label of the row) of exactly those rows, in
    the order of the frame.  A frame without a gold column is a
    [KeyError]. *)
Theorem calculate_auc_gold_01 (df : DataFrame) :
  wf_frame df = true ->
  calculate_auc roc_auc_score df =
  match assoc "gold" df with
  | Some _ =>
      let kept := List.filter gold_zero_or_one (iterrows df) in
      let* y_score := mapR predicted_score kept in
      roc_auc_score (map gold_of_row kept) y_score
  | None => Raise KeyError
  end.
Proof.
intros Hwf. rewrite calculate_auc_as_rows by by apply wf_frame_ok.
destruct (assoc "gold" df); [|done]. unfold auc_of_rows. simpl.
rewrite (List.filter_ext _ _ gold_is_01_spec).
by rewrite (mapR_ext _ _ _ (fun row _ => score_of_row_spec row)).
Qed.

(** *** The two phases of [eval_gold] *)

Lemma eval_gold_phases df :
  (eval_gold roc_auc_score float_of_string df).2 =
    (let* df' := prepare float_of_string df in metrics roc_auc_score df') /\
  (forall df', prepare float_of_string df = Ok df' ->
     (eval_gold roc_auc_score float_of_string df).1 = df').
Proof.
  unfold eval_gold, mbindM, getitem, lift, setitem, this, prepare, gold64_frame,
    metrics.
  destruct (df_getitem df "gold") as [gold|e]; simpl; [|by split].
  destruct (astype_float64 float_of_string gold) as [gold64|e]; simpl; [|by split].
  destruct (mapR abs_gold_diff _) as [diffs|e]; simpl; [|by split].
  set (df' := df_setitem (df_setitem df "gold" gold64) "abs_gold_diff" _).
  destruct (df_getitem df' "abs_gold_diff") as [diff_col|e]; simpl;
    [|split; [done | by intros ? [= <-]]].
  destruct (series_mean diff_col) as [avg|e]; simpl;
    [|split; [done | by intros ? [= <-]]].
  destruct (calculate_auc roc_auc_score df') as [auc|e]; simpl;
    [|split; [done | by intros ? [= <-]]].
  destruct (df_getitem df' "label") as [labels|e]; simpl;
    [|split; [done | by intros ? [= <-]]].
  split; [done | by intros ? [= <-]].
Qed.

Lemma eval_gold_ok df df' res :
  eval_gold roc_auc_score float_of_string df = (df', Ok res) ->
  prepare float_of_string df = Ok df' /\ metrics roc_auc_score df' = Ok res.
Proof.
  intros H. destruct (eval_gold_phases df) as [H2 H1].
  rewrite H in H1, H2. simpl in *. symmetry in H2.
  apply rbind_ok in H2 as (d & Hd & Hm). pose proof (H1 d Hd) as <-. done.
Qed.

Lemma eval_gold_of_phases df df' r :
  prepare float_of_string df = Ok df' -> metrics roc_auc_score df' = r ->
  eval_gold roc_auc_score float_of_string df = (df', r).
Proof.
  intros Hp Hm. destruct (eval_gold_phases df) as [H2 H1].
  rewrite Hp in H2. simpl in H2. specialize (H1 _ Hp).
  destruct (eval_gold _ _ df) as [d r']. simpl in *. congruence.
Qed.

Lemma eval_gold_prepare_raises df :
  raises (prepare float_of_string df) ->
  raises (eval_gold roc_auc_score float_of_string df).2.
Proof.
  intros [e He]. destruct (eval_gold_phases df) as [-> _]. rewrite He. by exists e.
Qed.

(** *** The prepared frame *)

Lemma df_getitem_ok df k col : df_getitem df k = Ok col <-> assoc k df = Some col.
Proof. unfold df_getitem. destruct (assoc k df); simpl; split; congruence. Qed.

Lemma prepare_inv df df' :
  prepare float_of_string df = Ok df' ->
  exists gold gold64 diffs,
    assoc "gold" df = Some gold /\
    astype_float64 float_of_string gold = Ok gold64 /\
    gold64_frame float_of_string df = Ok (df_setitem df "gold" gold64) /\
    mapR abs_gold_diff (iterrows (df_setitem df "gold" gold64)) = Ok diffs /\
    df' = df_setitem (df_setitem df "gold" gold64) "abs_gold_diff" (map VFloat diffs).
Proof.
  unfold prepare, gold64_frame. intros H.
  destruct (df_getitem df "gold") as [gold|] eqn:Hgold; [|done]. simpl in H.
  destruct (astype_float64 float_of_string gold) as [gold64|] eqn:H64; [|done].
  simpl in H. apply rbind_ok in H as (diffs & Hdiffs & [= <-]).
  exists gold, gold64, diffs. apply df_getitem_ok in Hgold.
  repeat split; try done. simpl. by rewrite H64.
Qed.

Lemma prepare_assoc df df' k :
  prepare float_of_string df = Ok df' ->
  k <> "gold" -> k <> "abs_gold_diff" -> assoc k df' = assoc k df.
Proof.
  intros (gold & gold64 & diffs & _ & _ & _ & _ & ->)%prepare_inv Hg Hd.
  by rewrite !assoc_setitem_ne.
Qed.

Lemma prepare_frame_ok df df' :
  frame_ok df -> prepare float_of_string df = Ok df' ->
  frame_ok df' /\ nrows df' = nrows df.
Proof.
  intros Hok (gold & gold64 & diffs & Hgold & H64 & _ & Hdiffs & ->)%prepare_inv.
  apply mapR_length in H64, Hdiffs.
  destruct (frame_ok_setitem df "gold" gold64 Hok) as [Hok1 Hn1].
  { by rewrite H64, (frame_ok_assoc _ _ _ Hok Hgold). }
  { by eapply assoc_not_nil. }
  destruct (frame_ok_setitem (df_setitem df "gold" gold64) "abs_gold_diff"
              (map VFloat diffs) Hok1) as [Hok2 Hn2].
  { by rewrite length_map, Hdiffs, iterrows_length. }
  { apply df_setitem_not_nil. }
  split; [done | congruence].
Qed.

(** *** The loops as lists of entries *)

Lemma name_step_entry df_label label results name :
  name_step roc_auc_score df_label label results name =
  let* kv := name_entry roc_auc_score df_label label name in
  Ok (<[kv.1 := kv.2]> results).
Proof.
  unfold name_step, name_entry. destruct (cell_eqb name label).
  - destruct (calculate_auc _ _); simpl; [|done]. by destruct (str_add _ _).
  - destruct (df_getitem _ _); simpl; [|done].
    destruct (calculate_auc _ _); simpl; [|done].
    destruct (str_add "auc_" label); simpl; [|done]. by destruct (str_add _ _).
Qed.

Lemma label_step_entries df results label :
  label_step roc_auc_score df results label =
  let* kvs := label_entries roc_auc_score df label in
  Ok (insert_all kvs results).
Proof.
  unfold label_step, label_entries.
  destruct (df_getitem df "label") as [labels|]; simpl; [|done].
  destruct (df_getitem _ "name") as [names|]; simpl; [|done].
  rewrite <- foldR_entries. apply foldR_ext. intros. apply name_step_entry.
Qed.

Lemma metrics_ok df res :
  metrics roc_auc_score df = Ok res ->
  exists diff_col avg auc labels kvss,
    assoc "abs_gold_diff" df = Some diff_col /\
    series_mean diff_col = Ok avg /\
    calculate_auc roc_auc_score df = Ok auc /\
    assoc "label" df = Some labels /\
    mapR (label_entries roc_auc_score df) (unique labels) = Ok kvss /\
    res = insert_all (concat kvss) (base_results avg auc).
Proof.
  unfold metrics. intros H.
  apply rbind_ok in H as (diff_col & Hd%df_getitem_ok & H).
  apply rbind_ok in H as (avg & Havg & H).
  apply rbind_ok in H as (auc & Hauc & H).
  apply rbind_ok in H as (labels & Hl%df_getitem_ok & H).
  rewrite (foldR_ext _ _ _ _ (label_step_entries df)), foldR_batches in H.
  apply rbind_ok in H as (kvss & Hk & [= <-]).
  by exists diff_col, avg, auc, labels, kvss.
Qed.

(** *** Entries and rows *)

Lemma rows_of_label df labels l :
  frame_ok df -> assoc "label" df = Some labels ->
  iterrows (mask_select df (col_eq labels l)) = label_rows l (iterrows df).
Proof.
  intros Hok Hl. apply (iterrows_select df "label" labels (fun c => cell_eqb c l) Hok Hl).
Qed.

Lemma rows_of_label_name df labels names_l l n :
  frame_ok df -> assoc "label" df = Some labels ->
  assoc "name" (mask_select df (col_eq labels l)) = Some names_l ->
  iterrows (mask_select (mask_select df (col_eq labels l)) (col_eq names_l n)) =
  label_name_rows l n (iterrows df).
Proof.
  intros Hok Hl Hn.
  rewrite (iterrows_select _ "name" names_l (fun c => cell_eqb c n)); [|by apply frame_ok_mask_select|done].
  rewrite (rows_of_label df labels l Hok Hl).
  unfold label_rows, label_name_rows. by rewrite filter_filter.
Qed.

Lemma row_cell_in_column df k col row c :
  frame_ok df -> assoc k df = Some col ->
  row ∈ iterrows df -> assoc k row = Some c -> c ∈ col.
Proof.
  intros Hok Hk Hrow Hc.
  assert (Some c ∈ map Some col) as Hin.
  { rewrite <- (iterrows_assoc df k col Hok Hk), <- Hc. by apply list_elem_of_fmap_2. }
  apply list_elem_of_fmap in Hin as (c' & [= ->] & Hin). done.
Qed.

Lemma column_cell_in_row df k col c :
  frame_ok df -> assoc k df = Some col -> c ∈ col ->
  exists row, row ∈ iterrows df /\ assoc k row = Some c.
Proof.
  intros Hok Hk Hc.
  assert (Some c ∈ map (assoc k) (iterrows df)) as Hin.
  { rewrite (iterrows_assoc df k col Hok Hk). by apply list_elem_of_fmap_2. }
  apply list_elem_of_fmap in Hin as (row & Hrow & Hin). eauto.
Qed.

Lemma row_key_in_columns df row k c :
  row ∈ iterrows df -> assoc k row = Some c -> exists col, assoc k df = Some col.
Proof.
  intros Hrow Hc.
  pose proof (iterrows_n_keys (nrows df) df) as Hkeys.
  rewrite Forall_forall in Hkeys. specialize (Hkeys row Hrow).
  apply (assoc_is_Some k df). change (k ∈ columns df). rewrite <- Hkeys.
  apply assoc_is_Some. eauto.
Qed.

(** A name the inner loop visits for label [l] is the name of a row
    whose label equals [l]. *)
Lemma visited_row df labels names_l l n :
  frame_ok df -> assoc "label" df = Some labels ->
  assoc "name" (mask_select df (col_eq labels l)) = Some names_l ->
  n ∈ names_l ->
  exists row c, row ∈ iterrows df /\ assoc "label" row = Some c /\
                cell_eqb c l = true /\ assoc "name" row = Some n.
Proof.
  intros Hok Hl Hn Hin.
  destruct (column_cell_in_row _ "name" names_l n
              (frame_ok_mask_select df _ Hok) Hn Hin) as (row & Hrow & Hname).
  rewrite (rows_of_label df labels l Hok Hl) in Hrow.
  apply filter_elem in Hrow as [Hrow Hhas]. unfold row_has in Hhas.
  destruct (assoc "label" row) as [c|] eqn:Hc; [|done].
  by exists row, c.
Qed.

(** A row with strings for label and name is visited by the loops. *)
Lemma row_visited df labels row l n :
  frame_ok df -> assoc "label" df = Some labels ->
  row ∈ iterrows df ->
  assoc "label" row = Some (VStr l) -> assoc "name" row = Some (VStr n) ->
  VStr l ∈ unique labels /\
  exists names_l, assoc "name" (mask_select df (col_eq labels (VStr l))) = Some names_l /\
                  VStr n ∈ unique names_l.
Proof.
  intros Hok Hl Hrow Hrl Hrn. split.
  - apply unique_str. by eapply row_cell_in_column.
  - destruct (row_key_in_columns df row "name" _ Hrow Hrn) as [names Hnames].
    exists (bool_mask (col_eq labels (VStr l)) names). split.
    + by rewrite assoc_mask_select, Hnames.
    + apply unique_str.
      eapply (row_cell_in_column (mask_select df (col_eq labels (VStr l))) "name");
        [by apply frame_ok_mask_select | by rewrite assoc_mask_select, Hnames | | done].
      rewrite (rows_of_label df labels _ Hok Hl). apply filter_elem. split; [done|].
      unfold row_has. rewrite Hrl. apply cell_eqb_str_refl.
Qed.

(** What one turn of the inner loop files: the AUC of the rows of the
    group, under the key of the group. *)
Lemma name_entry_rows df labels l n k v :
  frame_ok df -> assoc "label" df = Some labels -> is_Some (assoc "gold" df) ->
  name_entry roc_auc_score (mask_select df (col_eq labels l)) l n = Ok (k, v) ->
  key_of l n = Ok k /\
  exists a, v = VFloat a /\
            auc_of_rows roc_auc_score (group_rows l n (iterrows df)) = Ok a.
Proof.
  intros Hok Hl [gold Hgold] H. unfold name_entry, key_of, group_rows in *.
  pose proof (frame_ok_mask_select df (col_eq labels l) Hok) as Hok_l.
  destruct (cell_eqb n l).
  - apply rbind_ok in H as (auc & Hauc & H). apply rbind_ok in H as (key & Hkey & [= <- <-]).
    split; [done|]. exists auc. split; [done|].
    rewrite (calculate_auc_as_rows _ Hok_l), assoc_mask_select, Hgold in Hauc.
    simpl in Hauc. by rewrite (rows_of_label df labels l Hok Hl) in Hauc.
  - apply rbind_ok in H as (names_l & Hn%df_getitem_ok & H).
    apply rbind_ok in H as (auc & Hauc & H).
    apply rbind_ok in H as (kl & Hkl & H). apply rbind_ok in H as (key & Hkey & [= <- <-]).
    split; [by rewrite Hkl|]. exists auc. split; [done|].
    rewrite calculate_auc_as_rows in Hauc by by apply frame_ok_mask_select.
    rewrite !assoc_mask_select, Hgold in Hauc. simpl in Hauc.
    by rewrite (rows_of_label_name df labels names_l l n Hok Hl Hn) in Hauc.
Qed.

Lemma concat_elem {A} (x : A) (ls : list (list A)) :
  x ∈ concat ls <-> exists l, l ∈ ls /\ x ∈ l.
Proof.
  rewrite list_elem_of_In, in_concat. split; intros (l & H1 & H2); exists l;
    by rewrite ?list_elem_of_In in *.
Qed.

Lemma label_entries_inv df labels l kvs :
  assoc "label" df = Some labels ->
  label_entries roc_auc_score df l = Ok kvs ->
  exists names_l,
    assoc "name" (mask_select df (col_eq labels l)) = Some names_l /\
    mapR (name_entry roc_auc_score (mask_select df (col_eq labels l)) l)
      (unique names_l) = Ok kvs.
Proof.
  intros Hl H. unfold label_entries, df_getitem in H. rewrite Hl in H. simpl in H.
  destruct (rbind_ok _ _ _ H) as (names_l & Hn%df_getitem_ok & H').
  by exists names_l.
Qed.

(** Every entry the loops file comes from one visited label and name. *)
Lemma entries_inv df labels kvss k v :
  assoc "label" df = Some labels ->
  mapR (label_entries roc_auc_score df) (unique labels) = Ok kvss ->
  (k, v) ∈ concat kvss ->
  exists l n names_l,
    l ∈ unique labels /\
    assoc "name" (mask_select df (col_eq labels l)) = Some names_l /\
    n ∈ unique names_l /\
    name_entry roc_auc_score (mask_select df (col_eq labels l)) l n = Ok (k, v).
Proof.
  intros Hl Hmap (kvs & Hkvs & Hkv)%concat_elem.
  destruct (proj1 (mapR_elem _ _ _ _ Hmap) Hkvs) as (l & Hlin & Hle).
  destruct (label_entries_inv df labels l kvs Hl Hle) as (names_l & Hn & Hm).
  destruct (proj1 (mapR_elem _ _ _ _ Hm) Hkv) as (n & Hnin & Hne).
  by exists l, n, names_l.
Qed.

(** Every visited label and name files an entry. *)
Lemma entries_intro df labels kvss l n names_l :
  assoc "label" df = Some labels ->
  mapR (label_entries roc_auc_score df) (unique labels) = Ok kvss ->
  l ∈ unique labels ->
  assoc "name" (mask_select df (col_eq labels l)) = Some names_l ->
  n ∈ unique names_l ->
  exists k v,
    name_entry roc_auc_score (mask_select df (col_eq labels l)) l n = Ok (k, v) /\
    (k, v) ∈ concat kvss.
Proof.
  intros Hl Hmap Hlin Hn Hnin.
  destruct (mapR_ok_elem _ _ _ _ Hmap Hlin) as (kvs & Hle & Hkvs).
  destruct (label_entries_inv df labels l kvs Hl Hle) as (names_l' & Hn' & Hm).
  rewrite Hn in Hn'. injection Hn' as <-.
  destruct (mapR_ok_elem _ _ _ _ Hm Hnin) as ([k v] & Hne & Hkv).
  exists k, v. split; [done|]. apply concat_elem. eauto.
Qed.

Lemma str_add_ok s c k : str_add s c = Ok k -> exists t, c = VStr t /\ k = s +:+ t.
Proof. destruct c as [z|f|t]; simpl; try done. intros [= <-]. eauto. Qed.

Lemma string_app_assoc (a b c : string) : (a +:+ b) +:+ c = a +:+ b +:+ c.
Proof.
  induction a as [|x a IH]; [done|].
  change (String x ((a +:+ b) +:+ c) = String x (a +:+ b +:+ c)). by f_equal.
Qed.

Lemma key_of_ok l n k :
  key_of l n = Ok k -> exists s t, l = VStr s /\ k = "auc_" +:+ t.
Proof.
  unfold key_of. destruct (cell_eqb n l).
  - intros (t & -> & ->)%str_add_ok. eauto.
  - intros (kl & (s & -> & ->)%str_add_ok & (t & -> & ->)%str_add_ok)%rbind_ok.
    exists s, (s +:+ "_" +:+ t). split; [done|].
    by rewrite !string_app_assoc.
Qed.

Lemma key_of_label s : key_of (VStr s) (VStr s) = Ok ("auc_" +:+ s).
Proof. unfold key_of. by rewrite cell_eqb_str_refl. Qed.

Lemma key_of_label_name s t :
  s <> t -> key_of (VStr s) (VStr t) = Ok ("auc_" +:+ s +:+ "_" +:+ t).
Proof.
  intros Hne. unfold key_of. simpl.
  destruct (String.eqb_spec t s) as [->|_]; [done|]. simpl.
  by rewrite string_app_assoc.
Qed.

(** The key of an entry is the key of a row of the frame. *)
Lemma entry_key_of_row df labels names_l l n k v :
  frame_ok df -> assoc "label" df = Some labels -> is_Some (assoc "gold" df) ->
  assoc "name" (mask_select df (col_eq labels l)) = Some names_l ->
  n ∈ unique names_l ->
  name_entry roc_auc_score (mask_select df (col_eq labels l)) l n = Ok (k, v) ->
  exists row, row ∈ iterrows df /\ assoc "label" row = Some l /\
              assoc "name" row = Some n /\ key_of l n = Ok k.
Proof.
  intros Hok Hl Hgold Hn Hnin Hne.
  destruct (name_entry_rows df labels l n k v Hok Hl Hgold Hne) as [Hkey _].
  destruct (visited_row df labels names_l l n Hok Hl Hn (unique_elem _ _ Hnin))
    as (row & c & Hrow & Hc & Heq & Hname).
  destruct (key_of_ok _ _ _ Hkey) as (s & t & -> & _).
  apply cell_eqb_str in Heq as ->. by exists row.
Qed.

(** The entry of a group of rows whose key no other row shares. *)
Lemma metrics_entry df res l n key :
  frame_ok df -> is_Some (assoc "gold" df) ->
  metrics roc_auc_score df = Ok res ->
  (exists row, row ∈ iterrows df /\ assoc "label" row = Some (VStr l) /\
               assoc "name" row = Some (VStr n)) ->
  key_of (VStr l) (VStr n) = Ok key ->
  only_writer df key (VStr l) (VStr n) ->
  exists a, res !! key = Some (VFloat a) /\
    auc_of_rows roc_auc_score (group_rows (VStr l) (VStr n) (iterrows df)) = Ok a.
Proof.
  intros Hok Hgold Hm (row & Hrow & Hrl & Hrn) Hkey Honly.
  destruct (metrics_ok df res Hm) as (diff_col & avg & auc & labels & kvss &
    _ & _ & _ & Hl & Hmap & ->).
  destruct (row_visited df labels row l n Hok Hl Hrow Hrl Hrn)
    as (Hlin & names_l & Hn & Hnin).
  destruct (entries_intro df labels kvss _ _ names_l Hl Hmap Hlin Hn Hnin)
    as (k & v & Hne & Hkv).
  destruct (name_entry_rows df labels _ _ k v Hok Hl Hgold Hne) as (Hk & a & -> & Ha).
  rewrite Hkey in Hk. injection Hk as <-.
  exists a. split; [|done]. apply insert_all_unique; [done|].
  intros v' Hkv'.
  destruct (entries_inv df labels kvss key v' Hl Hmap Hkv')
    as (l' & n' & names_l' & Hlin' & Hn' & Hnin' & Hne').
  destruct (entry_key_of_row df labels names_l' l' n' key v' Hok Hl Hgold Hn' Hnin' Hne')
    as (row' & Hrow' & Hrl' & Hrn' & Hkey').
  destruct (Honly row' l' n' Hrow' Hrl' Hrn' Hkey') as [-> ->].
  rewrite Hne in Hne'. by injection Hne' as <-.
Qed.

Lemma prepare_gold df df' :
  prepare float_of_string df = Ok df' -> is_Some (assoc "gold" df').
Proof.
  intros (gold & gold64 & diffs & _ & _ & _ & _ & ->)%prepare_inv.
  rewrite assoc_setitem_ne by done. rewrite assoc_setitem_eq. eauto.
Qed.

(** *** The AUC per label and name *)

(** C2, amended.  When [eval_gold] returns, for every label [l] and
    every name [n] other than [l] that occur together in a row of the
    frame, the results hold under the key [auc_<l>_<n>] the AUC
    (restricted to gold 0 or 1) over exactly the rows with that label
    and that name, provided no row with another label or name yields
    the same key. *)
Theorem eval_gold_auc_label_name (df df' : DataFrame) (res : gmap string cell)
    (l n : string) :
  wf_frame df = true ->
  eval_gold roc_auc_score float_of_string df = (df', Ok res) ->
  l <> n ->
  (exists row, row ∈ iterrows df' /\ assoc "label" row = Some (VStr l) /\
               assoc "name" row = Some (VStr n)) ->
  only_writer df' ("auc_" +:+ l +:+ "_" +:+ n) (VStr l) (VStr n) ->
  exists a,
    res !! ("auc_" +:+ l +:+ "_" +:+ n) = Some (VFloat a) /\
    auc_of_rows roc_auc_score
      (label_name_rows (VStr l) (VStr n) (iterrows df')) = Ok a.
Proof.
  intros Hwf [Hp Hm]%eval_gold_ok Hne Hrow Honly.
  destruct (prepare_frame_ok df df' (wf_frame_ok _ Hwf) Hp) as [Hok _].
  destruct (metrics_entry df' res l n _ Hok (prepare_gold _ _ Hp) Hm Hrow
              (key_of_label_name l n Hne) Honly) as (a & Hres & Ha).
  exists a. split; [done|]. unfold group_rows in Ha. simpl in Ha.
  destruct (String.eqb_spec n l) as [->|_]; [done | exact Ha].
Qed.

(** *** The average difference *)

Lemma entries_keys_auc df labels kvss k :
  assoc "label" df = Some labels ->
  mapR (label_entries roc_auc_score df) (unique labels) = Ok kvss ->
  k ∈ (concat kvss).*1 -> exists t, k = "auc_" +:+ t.
Proof.
  intros Hl Hmap ([k' v] & -> & Hkv)%list_elem_of_fmap. simpl.
  destruct (entries_inv df labels kvss k' v Hl Hmap Hkv)
    as (l & n & names_l & _ & _ & _ & Hne).
  unfold name_entry in Hne. destruct (cell_eqb n l).
  - apply rbind_ok in Hne as (auc & _ & H).
    apply rbind_ok in H as (key & (t & _ & ->)%str_add_ok & [= <- _]). eauto.
  - apply rbind_ok in Hne as (names & _ & H). apply rbind_ok in H as (auc & _ & H).
    apply rbind_ok in H as (kl & (s & _ & ->)%str_add_ok & H).
    apply rbind_ok in H as (key & (t & _ & ->)%str_add_ok & [= <- _]).
    exists (s +:+ "_" +:+ t). by rewrite !string_app_assoc.
Qed.

Lemma metrics_avg_diff df res diffs :
  assoc "abs_gold_diff" df = Some (map VFloat diffs) ->
  metrics roc_auc_score df = Ok res ->
  res !! "avg_diff" = Some (VFloat (mean_of (nan_free diffs))).
Proof.
  intros Hd Hm.
  destruct (metrics_ok df res Hm) as (diff_col & avg & auc & labels & kvss &
    Hd' & Havg & _ & Hl & Hmap & ->).
  assert (diff_col = map VFloat diffs) as -> by congruence.
  rewrite series_mean_floats in Havg. injection Havg as <-.
  rewrite insert_all_notin.
  - unfold base_results. by rewrite lookup_insert_ne, lookup_insert_eq.
  - intros (t & Ht)%(entries_keys_auc df labels). all: done.
Qed.

Lemma nan_free_filter (fs : list float) :
  nan_free (List.filter (fun d => negb (is_nan d)) fs) = nan_free fs.
Proof using.
clear.
induction fs as [|[q|] fs IH]; [done| |exact IH].
change (q :: nan_free (List.filter (fun d => negb (is_nan d)) fs) = q :: nan_free fs).
by f_equal.
Qed.

Lemma mean_skipping_nan (fs : list float) :
  mean_of (nan_free fs) =
  mean_every_row (List.filter (fun d => negb (is_nan d)) fs).
Proof using.
clear.
rewrite <- nan_free_filter. apply mean_every_row_nan_free.
apply Forall_forall. intros d [_ Hd]%list_elem_of_In%filter_In.
by apply negb_true_iff.
Qed.

(** C4, amended.  When [eval_gold] returns, [avg_diff] is the mean of
    the absolute differences between the predicted score of a row (the
    cell in the column named by its label) and its gold value, the gold
    column being [float64]; the mean is taken over the rows whose
    difference is not NaN, whatever their gold value, and so over every
    row of the frame when no difference is NaN. *)
Theorem eval_gold_avg_diff (df df' : DataFrame) (res : gmap string cell) :
  wf_frame df = true ->
  eval_gold roc_auc_score float_of_string df = (df', Ok res) ->
  exists mid diffs,
    gold64_frame float_of_string df = Ok mid /\
    mapR abs_difference (iterrows mid) = Ok diffs /\
    length diffs = nrows df /\
    res !! "avg_diff" =
      Some (VFloat (mean_every_row (List.filter (fun d => negb (is_nan d)) diffs))) /\
    (Forall (fun d => is_nan d = false) diffs ->
     res !! "avg_diff" = Some (VFloat (mean_every_row diffs))).
Proof.
  intros Hwf [Hp Hm]%eval_gold_ok.
  destruct (prepare_inv df df' Hp) as (gold & gold64 & diffs & Hgold & H64 & Hmid & Hdiffs & ->).
  assert (res !! "avg_diff" = Some (VFloat (mean_of (nan_free diffs)))) as Havg.
  { eapply metrics_avg_diff; [|done]. by rewrite assoc_setitem_eq. }
  exists (df_setitem df "gold" gold64), diffs.
  split; [done|]. split; [|split; [|split]].
  - rewrite <- Hdiffs. symmetry. apply mapR_ext. intros row _. apply abs_gold_diff_spec.
  - rewrite (mapR_length _ _ _ Hdiffs), iterrows_length.
    apply (frame_ok_setitem df "gold" gold64);
      [by apply wf_frame_ok | | by eapply assoc_not_nil].
    rewrite (mapR_length _ _ _ H64). by eapply frame_ok_assoc; [apply wf_frame_ok|].
  - by rewrite <- mean_skipping_nan.
  - intros Hnan. by rewrite <- (mean_every_row_nan_free diffs Hnan).
Qed.

(** *** The frame after [eval_gold] *)

Lemma to_float64_float c c' : to_float64 float_of_string c = Ok c' -> exists f, c' = VFloat f.
Proof.
  destruct c as [z|f|s]; simpl; [intros [= <-]; eauto..|].
  destruct (float_of_string s); simpl; [intros [= <-]; eauto | done].
Qed.

Lemma astype_float64_floats col col64 :
  astype_float64 float_of_string col = Ok col64 -> exists fs, col64 = map VFloat fs.
Proof.
  unfold astype_float64. revert col64.
  induction col as [|c col IH]; simpl; intros col64 H.
  - injection H as <-. by exists [].
  - apply rbind_ok in H as (c' & [f ->]%to_float64_float & H).
    apply rbind_ok in H as (col' & [fs ->]%IH & [= <-]). by exists (f :: fs).
Qed.

Lemma main_unfold FLAGS fs scored :
  scored_input ModelRunner FLAGS fs = Ok scored ->
  main roc_auc_score float_of_string ModelRunner open_w FLAGS fs =
  match eval_gold roc_auc_score float_of_string scored with
  | (_, Raise e) => (fs, Raise e)
  | (df', Ok results) =>
      match
        gfile_write open_w fs (eval_path FLAGS)
          (JsonFile (<["gold_path" := VStr (gold_path FLAGS)]> results))
      with
      | (fs, Raise e) => (fs, Raise e)
      | (fs, Ok _) => gfile_write open_w fs (output_path FLAGS) (CsvFile df')
      end
  end.
Proof. intros H. unfold main. unfold scored_input in H. by rewrite H. Qed.

(** [main] once [eval_gold] has returned: the two writes in turn. *)
Lemma main_writes FLAGS fs scored df' res :
  scored_input ModelRunner FLAGS fs = Ok scored ->
  eval_gold roc_auc_score float_of_string scored = (df', Ok res) ->
  main roc_auc_score float_of_string ModelRunner open_w FLAGS fs =
  let json := JsonFile (<["gold_path" := VStr (gold_path FLAGS)]> res) in
  match open_w (eval_path FLAGS) with
  | Raise e => (fs, Raise e)
  | Ok _ =>
      match open_w (output_path FLAGS) with
      | Raise e => (<[eval_path FLAGS := json]> fs, Raise e)
      | Ok _ =>
          (<[output_path FLAGS := CsvFile df']> (<[eval_path FLAGS := json]> fs),
           Ok tt)
      end
  end.
Proof.
  intros Hscored Heval. rewrite (main_unfold _ _ _ Hscored), Heval.
  unfold gfile_write. destruct (open_w (eval_path FLAGS)); [|done].
  by destruct (open_w (output_path FLAGS)).
Qed.

Lemma main_ok_inv FLAGS fs fs' scored :
  scored_input ModelRunner FLAGS fs = Ok scored ->
  main roc_auc_score float_of_string ModelRunner open_w FLAGS fs = (fs', Ok tt) ->
  exists df' res,
    eval_gold roc_auc_score float_of_string scored = (df', Ok res) /\
    fs' = <[output_path FLAGS := CsvFile df']>
            (<[eval_path FLAGS :=
                 JsonFile (<["gold_path" := VStr (gold_path FLAGS)]> res)]> fs).
Proof.
  intros Hscored Hmain.
  destruct (eval_gold roc_auc_score float_of_string scored) as [df' [res|e]] eqn:Heval.
  - rewrite (main_writes _ _ _ _ _ Hscored Heval) in Hmain. simpl in Hmain.
    destruct (open_w (eval_path FLAGS)); [|done].
    destruct (open_w (output_path FLAGS)); [|done].
    injection Hmain as <-. by exists df', res.
  - by rewrite (main_unfold _ _ _ Hscored), Heval in Hmain.
Qed.

Lemma eval_gold_frame df df' res :
  frame_ok df ->
  eval_gold roc_auc_score float_of_string df = (df', Ok res) ->
  (exists gold gold64,
     assoc "gold" df = Some gold /\
     astype_float64 float_of_string gold = Ok (map VFloat gold64) /\
     assoc "gold" df' = Some (map VFloat gold64)) /\
  (exists diffs,
     assoc "abs_gold_diff" df' = Some (map VFloat diffs) /\
     length diffs = nrows df) /\
  (forall k, k <> "gold" -> k <> "abs_gold_diff" -> assoc k df' = assoc k df) /\
  columns df' =
    (if decide ("abs_gold_diff" ∈ columns df) then columns df
     else columns df ++ ["abs_gold_diff"]).
Proof.
  intros Hok Heval.
  destruct (eval_gold_ok _ _ _ Heval) as [Hp Hm].
  destruct (prepare_inv df df' Hp)
    as (gold & gold64 & diffs & Hgold & H64 & Hmid & Hdiffs & Hdf').
  destruct (astype_float64_floats _ _ H64) as [fs64 ->].
  assert (columns (df_setitem df "gold" (map VFloat fs64)) = columns df) as Hcols.
  { apply columns_setitem_in. change ("gold" ∈ df.*1). apply assoc_is_Some. eauto. }
  repeat split.
  - exists gold, fs64. repeat split; [done..|].
    subst df'. rewrite assoc_setitem_ne by done. apply assoc_setitem_eq.
  - exists diffs. split; [subst df'; apply assoc_setitem_eq|].
    rewrite (mapR_length _ _ _ Hdiffs), iterrows_length.
    apply (frame_ok_setitem df "gold" (map VFloat fs64));
      [done | | by eapply assoc_not_nil].
    rewrite (mapR_length _ _ _ H64). by eapply frame_ok_assoc.
  - intros k Hk1 Hk2. by eapply prepare_assoc.
  - subst df'. destruct (decide ("abs_gold_diff" ∈ columns df)) as [Hin|Hnin].
    + rewrite columns_setitem_in; by rewrite Hcols.
    + rewrite columns_setitem_notin; by rewrite Hcols.
Qed.

(** C9.  When [eval_gold] returns, the frame it was given has its gold
    column converted to [float64], holds the column [abs_gold_diff]
    (appended when the frame had none), and has every other column as
    before; and [main], which writes the scored CSV after the call,
    writes that modified frame: the file it leaves at the output path
    when it returns, as it does whenever its two paths can be written,
    is that frame. *)
Theorem eval_gold_mutates_frame (df df' : DataFrame) (res : gmap string cell) :
  wf_frame df = true ->
  eval_gold roc_auc_score float_of_string df = (df', Ok res) ->
  (exists gold gold64,
     assoc "gold" df = Some gold /\
     astype_float64 float_of_string gold = Ok (map VFloat gold64) /\
     assoc "gold" df' = Some (map VFloat gold64)) /\
  (exists diffs,
     assoc "abs_gold_diff" df' = Some (map VFloat diffs) /\
     length diffs = nrows df) /\
  (forall k, k <> "gold" -> k <> "abs_gold_diff" -> assoc k df' = assoc k df) /\
  columns df' =
    (if decide ("abs_gold_diff" ∈ columns df) then columns df
     else columns df ++ ["abs_gold_diff"]) /\
  (forall FLAGS fs,
     scored_input ModelRunner FLAGS fs = Ok df ->
     (forall fs',
        main roc_auc_score float_of_string ModelRunner open_w FLAGS fs = (fs', Ok tt) ->
        fs' !! output_path FLAGS = Some (CsvFile df')) /\
     (open_w (eval_path FLAGS) = Ok tt ->
      open_w (output_path FLAGS) = Ok tt ->
      exists fs',
        main roc_auc_score float_of_string ModelRunner open_w FLAGS fs = (fs', Ok tt) /\
        fs' !! output_path FLAGS = Some (CsvFile df'))).
Proof.
  intros Hwf Heval.
  destruct (eval_gold_frame df df' res (wf_frame_ok _ Hwf) Heval)
    as (Hgold & Hdiff & Hother & Hcols).
  split; [done|]. split; [done|]. split; [done|]. split; [done|].
  intros FLAGS fs Hscored. split.
  - intros fs' Hmain.
    apply (main_ok_inv _ _ _ _ Hscored) in Hmain as (df2 & res2 & Heval2 & ->).
    rewrite Heval in Heval2. injection Heval2 as <- <-.
    by rewrite lookup_insert_eq.
  - intros H1 H2. rewrite (main_writes _ _ _ _ _ Hscored Heval). simpl.
    rewrite H1, H2. eexists. split; [done|]. by rewrite lookup_insert_eq.
Qed.

(** *** The keys of the results *)

Lemma insert_all_keeps kvs (m : gmap string cell) k :
  is_Some (m !! k) -> is_Some (insert_all kvs m !! k).
Proof.
  revert m. induction kvs as [|[k' v] kvs IH]; intros m Hm; [done|].
  unfold insert_all in *. simpl. apply IH. apply lookup_insert_is_Some.
  destruct (decide (k' = k)); auto.
Qed.

Lemma string_app_inj (p a b : string) : p +:+ a = p +:+ b -> a = b.
Proof.
induction p as [|x p IH]; [done|].
change (String x (p +:+ a) = String x (p +:+ b) -> a = b).
intros [= H]. by apply IH.
Qed.

Lemma base_results_keys avg auc k :
  is_Some (base_results avg auc !! k) -> k = "auc_all" \/ k = "avg_diff".
Proof.
  unfold base_results. intros H.
  apply lookup_insert_is_Some in H as [<-|[_ H]]; [auto|].
  apply lookup_insert_is_Some in H as [<-|[_ H]]; [auto|].
  rewrite lookup_empty in H. by destruct H.
Qed.

(** C3, amended.  When [main] succeeds, the JSON file holds the keys
    [avg_diff], [auc_all] and [gold_path], and besides them only keys
    [auc_<label>] or [auc_<label>_<name>] of the label and name of a
    row.  The key [auc_<label>] is there, with the AUC over the rows of
    that label, for every label that has a row whose name is the label
    itself (and whose key no row with another label or name yields);
    and a key [auc_<label>] other than [auc_all] that no row yields is
    not in the file, so that a label may be left without its key. *)
Theorem main_json_keys (FLAGS : Flags) (fs fs' : gmap string file)
    (scored : DataFrame) :
  scored_input ModelRunner FLAGS fs = Ok scored ->
  wf_frame scored = true ->
  eval_path FLAGS <> output_path FLAGS ->
  main roc_auc_score float_of_string ModelRunner open_w FLAGS fs = (fs', Ok tt) ->
  exists df' d,
    fs' !! output_path FLAGS = Some (CsvFile df') /\
    fs' !! eval_path FLAGS = Some (JsonFile d) /\
    d !! "gold_path" = Some (VStr (gold_path FLAGS)) /\
    is_Some (d !! "avg_diff") /\
    is_Some (d !! "auc_all") /\
    (forall k, is_Some (d !! k) ->
       k = "avg_diff" \/ k = "auc_all" \/ k = "gold_path" \/
       exists row l n,
         row ∈ iterrows df' /\ assoc "label" row = Some l /\
         assoc "name" row = Some n /\ key_of l n = Ok k) /\
    (forall l : string,
       (exists row, row ∈ iterrows df' /\ assoc "label" row = Some (VStr l) /\
                    assoc "name" row = Some (VStr l)) ->
       only_writer df' ("auc_" +:+ l) (VStr l) (VStr l) ->
       exists a,
         d !! ("auc_" +:+ l) = Some (VFloat a) /\
         auc_of_rows roc_auc_score (label_rows (VStr l) (iterrows df')) = Ok a) /\
    (forall l : string,
       l <> "all" ->
       (forall row l' n',
          row ∈ iterrows df' -> assoc "label" row = Some l' ->
          assoc "name" row = Some n' -> key_of l' n' <> Ok ("auc_" +:+ l)) ->
       d !! ("auc_" +:+ l) = None).
Proof.
  intros Hscored Hwf Hpaths Hmain.
  apply (main_ok_inv _ _ _ _ Hscored) in Hmain as (df' & res & Heval & ->).
  destruct (eval_gold_ok _ _ _ Heval) as [Hp Hm].
  destruct (prepare_frame_ok _ _ (wf_frame_ok _ Hwf) Hp) as [Hok _].
  pose proof (prepare_gold _ _ Hp) as Hgold.
  destruct (prepare_inv _ _ Hp) as (gold & gold64 & diffs & _ & _ & _ & _ & Hdf').
  assert (assoc "abs_gold_diff" df' = Some (map VFloat diffs)) as Hdiff
    by (subst df'; apply assoc_setitem_eq).
  pose proof (metrics_avg_diff _ _ _ Hdiff Hm) as Havg.
  destruct (metrics_ok _ _ Hm) as (diff_col & avg & auc & labels & kvss &
    _ & _ & _ & Hl & Hmap & Hres).
  exists df', (<["gold_path" := VStr (gold_path FLAGS)]> res).
  split; [by rewrite lookup_insert_eq|].
  split; [by rewrite lookup_insert_ne, lookup_insert_eq|].
  split; [by rewrite lookup_insert_eq|].
  split; [by rewrite lookup_insert_ne, Havg|].
  split.
  { rewrite lookup_insert_ne by done. rewrite Hres. apply insert_all_keeps.
    unfold base_results. rewrite lookup_insert_eq. eauto. }
  assert (forall k,
    is_Some ((<["gold_path" := VStr (gold_path FLAGS)]> res) !! k) ->
    k = "avg_diff" \/ k = "auc_all" \/ k = "gold_path" \/
    exists row l n,
      row ∈ iterrows df' /\ assoc "label" row = Some l /\
      assoc "name" row = Some n /\ key_of l n = Ok k) as Hkeys.
  { intros k [<-|Hk]%lookup_insert_is_Some'; [auto|].
    rewrite Hres in Hk. apply insert_all_is_Some in Hk as [Hk|Hk].
    + apply list_elem_of_fmap in Hk as ([k' v] & -> & Hkv). simpl.
      destruct (entries_inv _ _ _ _ _ Hl Hmap Hkv)
        as (l & n & names_l & Hlin & Hn & Hnin & Hne).
      destruct (entry_key_of_row _ _ _ _ _ _ _ Hok Hl Hgold Hn Hnin Hne)
        as (row & ?). right; right; right. by exists row, l, n.
    + apply base_results_keys in Hk as [->| ->]; auto. }
  split; [done|]. split; last first.
  { intros l Hall Hnone. apply eq_None_not_Some. intros Hk.
    destruct (Hkeys _ Hk) as [H|[H|[H|(row & l' & n' & Hrow & Hl' & Hn' & Hkey)]]].
    - apply (f_equal (String.get 1)) in H. vm_compute in H. done.
    - change "auc_all" with ("auc_" +:+ "all") in H.
      by apply string_app_inj in H.
    - apply (f_equal (String.get 0)) in H. vm_compute in H. done.
    - by apply (Hnone row l' n'). }
  - intros l Hrow Honly.
    destruct (metrics_entry _ _ l l _ Hok Hgold Hm Hrow (key_of_label l) Honly)
      as (a & Hres' & Ha).
    exists a. split.
    + rewrite lookup_insert_ne; [done|]. intros H.
      apply (f_equal (String.get 0)) in H. vm_compute in H. done.
    + unfold group_rows in Ha. by rewrite cell_eqb_str_refl in Ha.
Qed.

(** *** Undefined AUC *)






(** *** A frame without a name column *)

Lemma metrics_needs_name df :
  frame_ok df -> nrows df <> 0 -> assoc "name" df = None ->
  raises (metrics roc_auc_score df).
Proof.
  intros Hok Hn Hname.
  destruct (ok_or_raises (metrics roc_auc_score df)) as [[res Hm]|]; [|done].
  exfalso.
  destruct (metrics_ok _ _ Hm) as (diff_col & avg & auc & labels & kvss &
    _ & _ & _ & Hl & Hmap & _).
  pose proof (frame_ok_assoc _ _ _ Hok Hl) as Hlen.
  destruct labels as [|c labels]; [by rewrite <- Hlen in Hn|].
  destruct (mapR_ok_elem _ _ _ c Hmap) as (kvs & Hle & _); [simpl; left|].
  destruct (label_entries_inv _ _ _ _ Hl Hle) as (names_l & Hnl & _).
  rewrite assoc_mask_select, Hname in Hnl. done.
Qed.

(** *** [score_gold] *)

Lemma columns_score_columns labels scores :
  columns (score_columns labels scores) = labels.
Proof.
  revert scores. induction labels as [|l labels IH]; intros scores; simpl; [done|].
  f_equal. apply IH.
Qed.

Lemma score_columns_floats labels scores :
  Forall (fun kc => exists fs, kc.2 = map VFloat fs /\ length fs = length scores)
    (score_columns labels scores).
Proof.
  revert scores. induction labels as [|l labels IH]; intros scores; simpl;
    constructor.
  - exists (map (hd FNaN) scores). simpl. by rewrite map_map, length_map.
  - eapply Forall_impl; [apply IH|]. intros kc (fs & -> & Hlen).
    exists fs. split; [done|]. by rewrite Hlen, length_map.
Qed.

Lemma columns_concat_columns a b :
  columns (concat_columns a b) = columns a ++ columns b.
Proof. unfold columns, concat_columns. by rewrite map_map, map_app. Qed.

Lemma concat_columns_same n a b :
  cols_len n a -> cols_len n b -> concat_columns a b = a ++ b.
Proof.
  intros Ha Hb. unfold concat_columns.
  assert (Nat.max (nrows a) (nrows b) <= n) as Hmax.
  { assert (forall df, cols_len n df -> nrows df <= n) as Hle.
    { intros [|[k c] df] H; simpl; [lia|]. apply Forall_cons in H as [H _].
      simpl in H. lia. }
    pose proof (Hle a Ha). pose proof (Hle b Hb). lia. }
  transitivity (map (fun kc : string * column => kc) (a ++ b)); [|apply map_id].
  apply map_ext_in. intros [k c] Hin. simpl. f_equal.
  assert (length c = n) as Hc.
  { apply in_app_or in Hin as [Hin|Hin]; apply list_elem_of_In in Hin.
    - unfold cols_len in Ha. rewrite Forall_forall in Ha. apply (Ha _ Hin).
    - unfold cols_len in Hb. rewrite Forall_forall in Hb. apply (Hb _ Hin). }
  unfold reindex. destruct (Nat.ltb_spec (length c) (Nat.max (nrows a) (nrows b))); [lia | done].
Qed.

Lemma score_gold_inv df_gold model scored :
  score_gold df_gold model = Ok scored ->
  exists text scores,
    assoc "comment_text" df_gold = Some text /\
    predict model text = Ok scores /\
    scored = concat_columns (score_columns (labels model) scores) df_gold.
Proof.
  unfold score_gold. intros H.
  apply rbind_ok in H as (text & Ht%df_getitem_ok & H).
  apply rbind_ok in H as (scores & Hs & H).
  apply rbind_ok in H as (df_scores & Hd & [= <-]).
  unfold frame_of_scores in Hd. destruct (forallb _ scores); [|done].
  injection Hd as <-. by exists text, scores.
Qed.

Lemma score_gold_columns df_gold model scored :
  score_gold df_gold model = Ok scored ->
  columns scored = labels model ++ columns df_gold.
Proof.
  intros (text & scores & _ & _ & ->)%score_gold_inv.
  by rewrite columns_concat_columns, columns_score_columns.
Qed.

(** C6, as the code has it.  The pipeline does not run without a
    [name] column: on gold data with at least one row, no [name]
    column and a model with no head of that name, [eval_gold] raises
    on the scored frame, and so does [score_gold] followed by
    [eval_gold]. *)
Theorem pipeline_needs_name (df_gold : DataFrame) (model : Model)
    (scored : DataFrame) :
  score_gold df_gold model = Ok scored ->
  wf_frame scored = true ->
  nrows scored <> 0 ->
  "name" ∉ columns df_gold ->
  "name" ∉ labels model ->
  raises (eval_gold roc_auc_score float_of_string scored).2 /\
  raises (pipeline roc_auc_score float_of_string df_gold model).
Proof.
  intros Hscore Hwf Hn Hgold Hmodel.
  assert (raises (eval_gold roc_auc_score float_of_string scored).2) as Hr.
  { destruct (ok_or_raises (prepare float_of_string scored)) as [[df' Hp]|Hp];
      [|by apply eval_gold_prepare_raises].
    destruct (prepare_frame_ok _ _ (wf_frame_ok _ Hwf) Hp) as [Hok Hrows].
    rewrite (eval_gold_of_phases _ _ _ Hp eq_refl). simpl.
    apply (metrics_needs_name df' Hok); [congruence|].
    rewrite (prepare_assoc _ _ "name" Hp) by done.
    apply assoc_None. change (scored.*1) with (columns scored).
    rewrite (score_gold_columns _ _ _ Hscore), elem_of_app. by intros [?|?]. }
  split; [done|]. unfold pipeline. rewrite Hscore. simpl.
  destruct Hr as [e He]. destruct (eval_gold _ _ scored) as [d r]. simpl in He.
  subst r. by exists e.
Qed.

(** *** Score lookups *)

Lemma selection_frame_ok df sub : frame_ok df -> selection_of df sub -> frame_ok sub.
Proof. intros Hok. induction 1; [done|]. by apply frame_ok_mask_select. Qed.

Lemma selection_columns df sub : selection_of df sub -> columns sub = columns df.
Proof. induction 1; [done|]. by rewrite columns_mask_select. Qed.

Lemma selection_cells df sub k col :
  assoc k df = Some col -> selection_of df sub ->
  exists col', assoc k sub = Some col' /\ forall c, c ∈ col' -> c ∈ col.
Proof.
  intros Hk. induction 1 as [|sub m _ (col' & Hk' & Hsub)]; [by exists col|].
  exists (bool_mask m col'). split; [by rewrite assoc_mask_select, Hk'|].
  intros c Hc%bool_mask_elem. auto.
Qed.

Lemma lookups_succeed df label_col :
  frame_ok df -> assoc "label" df = Some label_col ->
  (forall c, c ∈ label_col -> exists l, c = VStr l /\ l ∈ columns df) ->
  exists scores, mapR score_of_row (iterrows df) = Ok scores.
Proof.
  intros Hok Hl Hmatch. apply mapR_total. intros row Hrow.
  pose proof (iterrows_n_keys (nrows df) df) as Hkeys.
  rewrite Forall_forall in Hkeys. specialize (Hkeys row Hrow).
  destruct (proj2 (assoc_is_Some "label" row)) as [c Hc].
  { rewrite Hkeys. change ("label" ∈ df.*1). apply assoc_is_Some. eauto. }
  destruct (Hmatch c (row_cell_in_column df "label" label_col row c Hok Hl Hrow Hc))
    as (l & -> & Hin).
  destruct (proj2 (assoc_is_Some l row)) as [v Hv]; [by rewrite Hkeys|].
  exists v. unfold score_of_row, series_getitem. rewrite Hc. simpl.
  unfold series_getitem. by rewrite Hv.
Qed.

Lemma columns_setitem_incl df k col k' :
  k' ∈ columns df -> k' ∈ columns (df_setitem df k col).
Proof.
  unfold columns. rewrite <- !assoc_is_Some. intros Hk'.
  destruct (decide (k' = k)) as [->|Hne].
  - rewrite assoc_setitem_eq. eauto.
  - by rewrite assoc_setitem_ne.
Qed.

Lemma gold64_frame_inv df mid :
  gold64_frame float_of_string df = Ok mid ->
  exists gold gold64,
    assoc "gold" df = Some gold /\
    astype_float64 float_of_string gold = Ok gold64 /\
    mid = df_setitem df "gold" gold64.
Proof.
  unfold gold64_frame. intros H.
  apply rbind_ok in H as (gold & Hg%df_getitem_ok & H).
  apply rbind_ok in H as (gold64 & H64 & [= <-]). by exists gold, gold64.
Qed.

(** *** The scored CSV *)



(** ** Beyond the claims *)

(** *** [score_gold] *)

Lemma wf_frame_intro df : NoDup (columns df) -> frame_ok df -> wf_frame df = true.
Proof.
intros Hnd Hok. unfold wf_frame. apply andb_true_intro. split.
- by apply bool_decide_eq_true_2.
- apply forallb_forall. intros kc Hkc%list_elem_of_In. apply Nat.eqb_eq.
  unfold frame_ok, cols_len in Hok. rewrite Forall_forall in Hok. by apply Hok.
Qed.

Lemma length_reindex n col : length col <= n -> length (reindex n col) = n.
Proof.
intros Hle. unfold reindex. destruct (Nat.ltb_spec (length col) n).
- rewrite length_app, length_map, length_replicate. lia.
- lia.
Qed.

Lemma frame_ok_nrows_le n df : cols_len n df -> nrows df <= n.
Proof.
destruct df as [|[k c] df]; simpl; [lia|]. intros [H _]%Forall_cons. simpl in H. lia.
Qed.

Lemma cols_len_concat_columns a b :
  frame_ok a -> frame_ok b ->
  cols_len (Nat.max (nrows a) (nrows b)) (concat_columns a b).
Proof.
intros Ha Hb. unfold cols_len, concat_columns. apply Forall_fmap, Forall_app. split.
- eapply Forall_impl; [exact Ha|]. intros [k c] Hc. simpl in *.
  apply length_reindex. lia.
- eapply Forall_impl; [exact Hb|]. intros [k c] Hc. simpl in *.
  apply length_reindex. lia.
Qed.

Lemma frame_ok_score_columns labels scores : frame_ok (score_columns labels scores).
Proof.
unfold frame_ok.
assert (cols_len (length scores) (score_columns labels scores)) as H.
{ unfold cols_len. eapply Forall_impl; [apply score_columns_floats|].
  intros kc (fs & -> & Hfs). by rewrite length_map. }
destruct labels as [|l labels]; [constructor|].
by rewrite (cols_len_nrows _ _ H).
Qed.

(** X1.  [score_gold] keeps frames well formed: on a gold frame with
    distinct column names and columns of one length, and a model whose
    heads are distinct and differ from the gold columns, the scored frame
    again has distinct column names and columns of one length, whatever
    number of rows [predict] returns; its columns are the heads followed
    by the gold columns, and it has at least the rows of the gold
    frame. *)
Theorem score_gold_wf (df_gold : DataFrame) (model : Model) (scored : DataFrame) :
  wf_frame df_gold = true ->
  NoDup (labels model ++ columns df_gold) ->
  score_gold df_gold model = Ok scored ->
  wf_frame scored = true /\
  columns scored = labels model ++ columns df_gold /\
  nrows df_gold <= nrows scored.
Proof using.
clear roc_auc_score float_of_string ModelRunner.
intros Hwf Hnd Hscore.
pose proof (score_gold_columns _ _ _ Hscore) as Hcols.
destruct (score_gold_inv _ _ _ Hscore) as (text & scores & Htext & _ & ->).
pose proof (cols_len_concat_columns _ _
  (frame_ok_score_columns (labels model) scores) (wf_frame_ok _ Hwf)) as Hlen.
assert (nrows (concat_columns (score_columns (labels model) scores) df_gold) =
        Nat.max (nrows (score_columns (labels model) scores)) (nrows df_gold)) as Hn.
{ apply (cols_len_nrows _ _ Hlen). unfold concat_columns.
  apply assoc_not_nil in Htext. destruct df_gold; [done|].
  by destruct (score_columns _ _). }
split; [|split; [done|lia]].
apply wf_frame_intro; [by rewrite Hcols|]. unfold frame_ok. by rewrite Hn.
Qed.

(** X2.  When the model returns one row of scores per comment,
    [score_gold] on a well-formed gold frame returns the score columns
    followed by the gold frame itself: no cell of the gold data is
    changed, and every column that is not a head of the model is found
    in the scored frame as it was in the gold frame. *)
Theorem score_gold_keeps_gold (df_gold : DataFrame) (model : Model)
    (scored : DataFrame) :
  wf_frame df_gold = true ->
  (forall text scores, predict model text = Ok scores -> length scores = length text) ->
  score_gold df_gold model = Ok scored ->
  exists scores,
    scored = score_columns (labels model) scores ++ df_gold /\
    length scores = nrows df_gold /\
    (forall k, k ∉ labels model -> assoc k scored = assoc k df_gold).
Proof using.
clear roc_auc_score float_of_string ModelRunner.
intros Hwf Hpredict Hscore.
destruct (score_gold_inv _ _ _ Hscore) as (text & scores & Htext & Hscores & ->).
pose proof (wf_frame_ok _ Hwf) as Hok.
assert (length scores = nrows df_gold) as Hlen.
{ rewrite (Hpredict _ _ Hscores). by eapply frame_ok_assoc. }
assert (cols_len (nrows df_gold) (score_columns (labels model) scores)) as Hcl.
{ unfold cols_len. eapply Forall_impl; [apply score_columns_floats|].
  intros kc (fs0 & -> & Hfs). rewrite length_map. congruence. }
exists scores. rewrite (concat_columns_same _ _ _ Hcl Hok).
split; [done|]. split; [done|].
intros k Hk. apply assoc_app_r, assoc_None.
change ((score_columns (labels model) scores).*1)
  with (columns (score_columns (labels model) scores)).
by rewrite columns_score_columns.
Qed.

Lemma assoc_concat_columns_l a b k c :
  assoc k a = Some c ->
  assoc k (concat_columns a b) = Some (reindex (Nat.max (nrows a) (nrows b)) c).
Proof.
intros Hk. unfold concat_columns.
rewrite (assoc_map_snd (reindex (Nat.max (nrows a) (nrows b)))).
by rewrite (assoc_app_l _ _ _ _ Hk).
Qed.

Lemma score_gold_split df_gold model :
  score_gold df_gold model =
  let* df_scores :=
    (let* text := df_getitem df_gold "comment_text" in
     let* scores := predict model text in
     frame_of_scores scores (labels model)) in
  Ok (concat_columns df_scores df_gold).
Proof.
unfold score_gold. destruct (df_getitem df_gold "comment_text"); simpl; [|done].
by destruct (predict model _).
Qed.

(** X3.  The scores depend on the comments only: two gold frames with
    the same [comment_text] column and as many rows get the same score
    columns from a model, whatever their gold values, labels and other
    columns; and [score_gold] raises on the one exactly when, and as, it
    raises on the other. *)
Theorem score_gold_reads_comments_only (df1 df2 : DataFrame) (model : Model) :
  assoc "comment_text" df1 = assoc "comment_text" df2 ->
  nrows df1 = nrows df2 ->
  (forall e, score_gold df1 model = Raise e <-> score_gold df2 model = Raise e) /\
  (forall scored1 scored2 l,
     score_gold df1 model = Ok scored1 ->
     score_gold df2 model = Ok scored2 ->
     l ∈ labels model ->
     assoc l scored1 = assoc l scored2).
Proof using.
clear roc_auc_score float_of_string ModelRunner.
intros Htext Hrows. rewrite !score_gold_split. unfold df_getitem. rewrite Htext.
destruct (let* text := of_option KeyError (assoc "comment_text" df2) in
          let* scores := predict model text in
          frame_of_scores scores (labels model)) as [df_scores|e] eqn:Hs; simpl.
- split; [done|]. intros scored1 scored2 l [= <-] [= <-] Hl.
  apply rbind_ok in Hs as (text & _ & Hs). apply rbind_ok in Hs as (scores & _ & Hs).
  unfold frame_of_scores in Hs. destruct (forallb _ scores); [|done].
  injection Hs as <-.
  destruct (proj2 (assoc_is_Some l (score_columns (labels model) scores))) as [c Hc].
  { change (_.*1) with (columns (score_columns (labels model) scores)).
    by rewrite columns_score_columns. }
  by rewrite !(assoc_concat_columns_l _ _ _ _ Hc), Hrows.
- split; [done|]. by intros.
Qed.

(** *** [calculate_auc] *)

Lemma filter_bool_mask {A} (f : A -> bool) (l : list A) (m : list bool) :
  Forall2 (fun x b => f x = true -> b = true) l m ->
  List.filter f (bool_mask m l) = List.filter f l.
Proof.
induction 1 as [|x b l m Hxb _ IH]; [done|]. simpl.
destruct b; simpl.
- by rewrite IH.
- destruct (f x) eqn:Hfx; [by specialize (Hxb eq_refl)|done].
Qed.

Lemma Forall2_fmap_rows {A B} (g : A -> B) (h : B -> bool) (l : list A) (m : list bool) :
  Forall2 (fun y b => h y = true -> b = true) (map g l) m ->
  Forall2 (fun x b => h (g x) = true -> b = true) l m.
Proof. intros H. by apply Forall2_fmap_l in H. Qed.

(** X4.  [calculate_auc] does not see the rows it excludes: removing
    from a frame any rows whose gold value is neither 0 nor 1 (a
    boolean-mask selection that keeps every row with gold 0 or 1) leaves
    its result unchanged, be it an AUC or an exception. *)
Theorem calculate_auc_drops_excluded (df : DataFrame) (gold : column)
    (mask : list bool) :
  wf_frame df = true ->
  assoc "gold" df = Some gold ->
  Forall2 (fun c keep => isin01 c = true -> keep = true) gold mask ->
  calculate_auc roc_auc_score (mask_select df mask) = calculate_auc roc_auc_score df.
Proof using.
clear float_of_string ModelRunner.
intros Hwf Hgold Hmask. pose proof (wf_frame_ok _ Hwf) as Hok.
rewrite (calculate_auc_as_rows _ (frame_ok_mask_select _ mask Hok)).
rewrite (calculate_auc_as_rows _ Hok), assoc_mask_select, Hgold. simpl.
rewrite iterrows_mask_select by done. unfold auc_of_rows.
rewrite (filter_bool_mask gold_is_01 (iterrows df) mask); [done|].
rewrite <- (iterrows_column df "gold" gold Hok Hgold) in Hmask.
apply Forall2_fmap_l in Hmask. eapply Forall2_impl; [exact Hmask|].
intros row b Hb Hrow. apply Hb. unfold gold_is_01 in Hrow.
by destruct (assoc "gold" row).
Qed.

(** *** [eval_gold] *)

Lemma has_underscore_app (a b : string) : has_underscore (a +:+ "_" +:+ b) = true.
Proof.
induction a as [|x a IH]; [done|].
change (Ascii.eqb x "_"%char || has_underscore (a +:+ "_" +:+ b) = true).
rewrite IH. apply orb_true_r.
Qed.

Lemma underscore_not_in_all (a b : string) : a +:+ "_" +:+ b <> "all".
Proof.
intros H. apply (f_equal has_underscore) in H.
rewrite has_underscore_app in H. vm_compute in H. discriminate.
Qed.

Lemma key_of_auc_all l n :
  key_of l n = Ok "auc_all" -> l = VStr "all" /\ n = VStr "all".
Proof.
unfold key_of. destruct (cell_eqb n l) eqn:Heq.
- intros (t & -> & Ht)%str_add_ok.
  assert (t = "all") as -> by (symmetry; by apply (string_app_inj "auc_")).
  split; [done|]. by apply cell_eqb_str.
- intros (kl & (s & -> & ->)%str_add_ok & (t & -> & Ht)%str_add_ok)%rbind_ok.
  rewrite !string_app_assoc in Ht. apply (string_app_inj "auc_" "all") in Ht.
  symmetry in Ht. by apply underscore_not_in_all in Ht.
Qed.

(** X5.  When [eval_gold] returns and no row has both the label and the
    name [all], the results hold under [auc_all] the AUC of the whole
    prepared frame, that is the AUC over all its rows with gold 0 or 1
    (a row of label [all] named [all] would file its own AUC under that
    key). *)
Theorem eval_gold_auc_all (df df' : DataFrame) (res : gmap string cell) :
  wf_frame df = true ->
  eval_gold roc_auc_score float_of_string df = (df', Ok res) ->
  (forall row, row ∈ iterrows df' ->
     ~ (assoc "label" row = Some (VStr "all") /\ assoc "name" row = Some (VStr "all"))) ->
  exists a,
    res !! "auc_all" = Some (VFloat a) /\
    calculate_auc roc_auc_score df' = Ok a /\
    auc_of_rows roc_auc_score (iterrows df') = Ok a.
Proof using.
clear ModelRunner.
intros Hwf [Hp Hm]%eval_gold_ok Hall.
destruct (prepare_frame_ok _ _ (wf_frame_ok _ Hwf) Hp) as [Hok _].
pose proof (prepare_gold _ _ Hp) as Hgold.
destruct (metrics_ok _ _ Hm) as (diff_col & avg & auc & labels & kvss &
  _ & _ & Hauc & Hl & Hmap & ->).
exists auc. split; [|split; [done|]].
- rewrite insert_all_notin.
  + unfold base_results. by rewrite lookup_insert_eq.
  + intros ([k v] & Hk & Hkv)%list_elem_of_fmap. simpl in Hk. subst k.
    destruct (entries_inv _ _ _ _ _ Hl Hmap Hkv)
      as (l & n & names_l & Hlin & Hn & Hnin & Hne).
    destruct (entry_key_of_row _ _ _ _ _ _ _ Hok Hl Hgold Hn Hnin Hne)
      as (row & Hrow & Hrl & Hrn & Hkey).
    destruct (key_of_auc_all _ _ Hkey) as [-> ->]. by apply (Hall row).
- destruct Hgold as [gold Hgold].
  by rewrite (calculate_auc_as_rows _ Hok), Hgold in Hauc.
Qed.

(** X6.  The common case of gold data without subcategories, where every
    row is named after its label: when [eval_gold] returns, every label
    [l] of the frame has the key [auc_<l>] with the AUC over the rows of
    that label, and the results hold no key besides [avg_diff],
    [auc_all] and these. *)
Theorem eval_gold_names_are_labels (df df' : DataFrame) (res : gmap string cell) :
  wf_frame df = true ->
  eval_gold roc_auc_score float_of_string df = (df', Ok res) ->
  (forall row, row ∈ iterrows df' ->
     exists l, assoc "label" row = Some (VStr l) /\ assoc "name" row = Some (VStr l)) ->
  (forall l, (exists row, row ∈ iterrows df' /\ assoc "label" row = Some (VStr l)) ->
     exists a,
       res !! ("auc_" +:+ l) = Some (VFloat a) /\
       auc_of_rows roc_auc_score (label_rows (VStr l) (iterrows df')) = Ok a) /\
  (forall k, is_Some (res !! k) ->
     k = "avg_diff" \/ k = "auc_all" \/
     exists row l, row ∈ iterrows df' /\ assoc "label" row = Some (VStr l) /\
                   k = "auc_" +:+ l).
Proof using.
clear ModelRunner.
intros Hwf [Hp Hm]%eval_gold_ok Hnames.
destruct (prepare_frame_ok _ _ (wf_frame_ok _ Hwf) Hp) as [Hok _].
pose proof (prepare_gold _ _ Hp) as Hgold.
split.
- intros l (row & Hrow & Hrl).
  destruct (Hnames row Hrow) as (l0 & Hl0 & Hn0).
  assert (l0 = l) as -> by congruence.
  destruct (metrics_entry df' res l l ("auc_" +:+ l) Hok Hgold Hm) as (a & Hres & Ha).
  + by exists row.
  + apply key_of_label.
  + intros row' l' n' Hrow' Hl' Hn' Hkey.
    destruct (Hnames row' Hrow') as (s & Hs1 & Hs2).
    assert (l' = VStr s) as -> by congruence.
    assert (n' = VStr s) as -> by congruence.
    rewrite key_of_label in Hkey. injection Hkey as Hkey.
    by apply string_app_inj in Hkey as ->.
  + exists a. split; [done|]. unfold group_rows in Ha.
    by rewrite cell_eqb_str_refl in Ha.
- destruct (metrics_ok _ _ Hm) as (diff_col & avg & auc & labels & kvss &
    _ & _ & _ & Hl & Hmap & ->).
  intros k [Hk|Hk]%insert_all_is_Some.
  + apply list_elem_of_fmap in Hk as ([k' v] & -> & Hkv). simpl.
    destruct (entries_inv _ _ _ _ _ Hl Hmap Hkv)
      as (l & n & names_l & Hlin & Hn & Hnin & Hne).
    destruct (entry_key_of_row _ _ _ _ _ _ _ Hok Hl Hgold Hn Hnin Hne)
      as (row & Hrow & Hrl & Hrn & Hkey).
    destruct (Hnames row Hrow) as (s & Hs1 & Hs2).
    assert (l = VStr s) as -> by congruence.
    assert (n = VStr s) as -> by congruence.
    rewrite key_of_label in Hkey. injection Hkey as <-.
    right; right. by exists row, s.
  + apply base_results_keys in Hk as [->| ->]; auto.
Qed.

(** *** The frame when [eval_gold] raises *)

Lemma eval_gold_gold_raises df e :
  gold64_frame float_of_string df = Raise e ->
  eval_gold roc_auc_score float_of_string df = (df, Raise e).
Proof.
unfold eval_gold, mbindM, getitem, lift, setitem, this, gold64_frame.
destruct (df_getitem df "gold") as [gold|e0]; simpl; [|by intros [= ->]].
destruct (astype_float64 float_of_string gold) as [gold64|e0]; simpl; [done|].
by intros [= ->].
Qed.

Lemma eval_gold_diff_raises df mid e :
  gold64_frame float_of_string df = Ok mid ->
  mapR abs_gold_diff (iterrows mid) = Raise e ->
  eval_gold roc_auc_score float_of_string df = (mid, Raise e).
Proof.
unfold eval_gold, mbindM, getitem, lift, setitem, this, gold64_frame.
destruct (df_getitem df "gold") as [gold|e0]; simpl; [|done].
destruct (astype_float64 float_of_string gold) as [gold64|e0]; simpl; [|done].
intros [= <-] Hd. by rewrite Hd.
Qed.

(** X7.  [eval_gold] changes the frame of its caller also when it
    raises.  If it raises while converting the gold column, the frame is
    as it was; if it raises while computing the absolute differences
    (a label that names no column, a score that is no number), the gold
    column has already been converted; if it raises later, in an AUC or
    in the loops, the frame has both the converted gold column and the
    new [abs_gold_diff] column. *)
Theorem eval_gold_state_on_failure (df : DataFrame) (e : exn) :
  (eval_gold roc_auc_score float_of_string df).2 = Raise e ->
  (gold64_frame float_of_string df = Raise e /\
   (eval_gold roc_auc_score float_of_string df).1 = df) \/
  (exists mid,
     gold64_frame float_of_string df = Ok mid /\
     mapR abs_gold_diff (iterrows mid) = Raise e /\
     (eval_gold roc_auc_score float_of_string df).1 = mid) \/
  (exists df',
     prepare float_of_string df = Ok df' /\
     metrics roc_auc_score df' = Raise e /\
     (eval_gold roc_auc_score float_of_string df).1 = df').
Proof using.
clear ModelRunner.
intros He.
destruct (gold64_frame float_of_string df) as [mid|e0] eqn:Hmid.
- destruct (mapR abs_gold_diff (iterrows mid)) as [diffs|e0] eqn:Hdiffs.
  + right; right. exists (df_setitem mid "abs_gold_diff" (map VFloat diffs)).
    assert (prepare float_of_string df =
            Ok (df_setitem mid "abs_gold_diff" (map VFloat diffs))) as Hp
      by (unfold prepare; rewrite Hmid; simpl; by rewrite Hdiffs).
    rewrite (eval_gold_of_phases _ _ _ Hp eq_refl) in He |- *. by simpl in *.
  + right; left. exists mid.
    rewrite (eval_gold_diff_raises _ _ _ Hmid Hdiffs) in He |- *.
    simpl in *. by injection He as ->.
- left. rewrite (eval_gold_gold_raises _ _ Hmid) in He |- *.
  simpl in *. by injection He as ->.
Qed.

(** X8.  A label that names no column of the frame makes [eval_gold]
    raise, also in a row that no AUC would see: it raises in the
    computation of the absolute differences, after the gold column has
    been converted. *)
Theorem eval_gold_unknown_label (df mid : DataFrame) (label_col : column)
    (l : string) :
  wf_frame df = true ->
  assoc "label" df = Some label_col ->
  VStr l ∈ label_col ->
  l ∉ columns df ->
  gold64_frame float_of_string df = Ok mid ->
  exists e, eval_gold roc_auc_score float_of_string df = (mid, Raise e).
Proof using.
clear ModelRunner.
intros Hwf Hl Hin Hnot Hmid. pose proof (wf_frame_ok _ Hwf) as Hok.
destruct (gold64_frame_inv _ _ Hmid) as (gold & gold64 & Hgold & H64 & ->).
destruct (frame_ok_setitem df "gold" gold64 Hok) as [Hok' _].
{ rewrite (mapR_length _ _ _ H64). by eapply frame_ok_assoc. }
{ by eapply assoc_not_nil. }
assert (assoc "label" (df_setitem df "gold" gold64) = Some label_col) as Hl'
  by (by rewrite assoc_setitem_ne).
destruct (column_cell_in_row _ "label" label_col (VStr l) Hok' Hl' Hin)
  as (row & Hrow & Hrl).
assert (raises (mapR abs_gold_diff (iterrows (df_setitem df "gold" gold64)))) as [e He].
{ apply (mapR_raises _ _ row Hrow). unfold abs_gold_diff. apply rbind_raises_l.
  unfold score_of_row, series_getitem. rewrite Hrl. simpl. unfold series_getitem.
  assert (assoc l row = None) as ->; [|by exists KeyError].
  apply assoc_None.
  pose proof (iterrows_n_keys (nrows (df_setitem df "gold" gold64))
                (df_setitem df "gold" gold64)) as Hkeys.
  rewrite Forall_forall in Hkeys. rewrite (Hkeys row Hrow).
  rewrite columns_setitem_in; [done|].
  change ("gold" ∈ df.*1). apply assoc_is_Some. eauto. }
exists e. by apply eval_gold_diff_raises.
Qed.

(** *** The score lookups *)

Lemma reindex_floats n fs : exists fs', reindex n (map VFloat fs) = map VFloat fs'.
Proof using.
clear.
unfold reindex. destruct (length (map VFloat fs) <? n)%nat; [|by exists fs].
exists (fs ++ replicate (n - length (map VFloat fs)) FNaN).
rewrite map_app, map_map. f_equal.
induction (n - length (map VFloat fs)) as [|k IH]; [done|]. simpl. by rewrite <- IH.
Qed.

Lemma score_gold_head_floats df_gold model scored l :
  score_gold df_gold model = Ok scored -> l ∈ labels model ->
  exists fs, assoc l scored = Some (map VFloat fs).
Proof using.
clear.
intros (text & scores & _ & _ & ->)%score_gold_inv Hl.
destruct (proj2 (assoc_is_Some l (score_columns (labels model) scores))) as [c Hc].
{ change (_.*1) with (columns (score_columns (labels model) scores)).
  by rewrite columns_score_columns. }
pose proof (score_columns_floats (labels model) scores) as Hfloats.
rewrite Forall_forall in Hfloats.
destruct (Hfloats (l, c) (assoc_Some_elem _ _ _ Hc)) as (fs0 & Hfs & _).
simpl in Hfs. subst c.
rewrite (assoc_concat_columns_l _ _ _ _ Hc).
destruct (reindex_floats
  (Nat.max (nrows (score_columns (labels model) scores)) (nrows df_gold)) fs0)
  as [fs' ->].
by exists fs'.
Qed.

(** With string labels that name float columns and a float gold column,
    the comprehension of the absolute differences returns. *)
Lemma abs_diffs_total df label_col :
  frame_ok df -> assoc "label" df = Some label_col ->
  (exists gs, assoc "gold" df = Some (map VFloat gs)) ->
  (forall c, c ∈ label_col ->
     exists l fs, c = VStr l /\ assoc l df = Some (map VFloat fs)) ->
  exists diffs, mapR abs_gold_diff (iterrows df) = Ok diffs.
Proof using.
clear.
intros Hok Hl [gs Hg] Hmatch. apply mapR_total. intros row Hrow.
pose proof (iterrows_n_keys (nrows df) df) as Hkeys.
rewrite Forall_forall in Hkeys. specialize (Hkeys row Hrow).
destruct (proj2 (assoc_is_Some "label" row)) as [c Hc].
{ rewrite Hkeys. change ("label" ∈ df.*1). apply assoc_is_Some. eauto. }
destruct (Hmatch c (row_cell_in_column df "label" label_col row c Hok Hl Hrow Hc))
  as (l & fs & -> & Hcol).
destruct (proj2 (assoc_is_Some l row)) as [v Hv].
{ rewrite Hkeys. change (l ∈ df.*1). apply assoc_is_Some. eauto. }
destruct (proj2 (assoc_is_Some "gold" row)) as [g Hgr].
{ rewrite Hkeys. change ("gold" ∈ df.*1). apply assoc_is_Some. eauto. }
pose proof (row_cell_in_column df l _ row v Hok Hcol Hrow Hv) as Hvin.
pose proof (row_cell_in_column df "gold" _ row g Hok Hg Hrow Hgr) as Hgin.
apply list_elem_of_fmap in Hvin as (fv & -> & _).
apply list_elem_of_fmap in Hgin as (fg & -> & _).
unfold abs_gold_diff, score_of_row, series_getitem. rewrite Hc. simpl.
unfold series_getitem. rewrite Hv. simpl. rewrite Hgr. simpl. eauto.
Qed.

Lemma series_iloc_ok (row : Series) z :
  (exists v, series_iloc row z = Ok v) <->
  (- Z.of_nat (length row) <= z < Z.of_nat (length row))%Z.
Proof using.
clear.
unfold series_iloc.
destruct (Z.ltb_spec z 0) as [Hneg|Hpos].
- destruct (Z.leb_spec 0 (Z.of_nat (length row) + z)) as [H0|H0]; simpl.
  + destruct (Z.ltb_spec (Z.of_nat (length row) + z) (Z.of_nat (length row))) as [H1|H1];
      [|lia].
    split; [lia|]. intros _.
    destruct (lookup_lt_is_Some_2 row (Z.to_nat (Z.of_nat (length row) + z)))
      as [kv Hkv]; [lia|].
    rewrite Hkv. simpl. eauto.
  + split; [by intros [v Hv] | lia].
- destruct (Z.leb_spec 0 z) as [_|]; [|lia]. simpl.
  destruct (Z.ltb_spec z (Z.of_nat (length row))) as [H1|H1].
  + split; [lia|]. intros _.
    destruct (lookup_lt_is_Some_2 row (Z.to_nat z)) as [kv Hkv]; [lia|].
    rewrite Hkv. simpl. eauto.
  + split; [by intros [v Hv] | lia].
Qed.

(** C8, amended.  When every cell of the label column names a head of
    the model, every score lookup [row[row['label']]] succeeds: those of
    the [avg_diff] computation, over the rows of the frame with its gold
    column converted, where the whole comprehension of the differences
    returns; and those of [calculate_auc], over the rows of the prepared
    frame and of any selection of it, where [calculate_auc] reaches the
    metric.  The condition is sufficient and not necessary: the lookup
    of a row succeeds exactly when its label is a string that names a
    column of the frame, a head of the model or not, or an integer that
    is a position of the row; a string that names no column is a
    [KeyError]. *)
Theorem score_lookups_succeed (df_gold : DataFrame) (model : Model)
    (scored : DataFrame) (label_col : column) :
  score_gold df_gold model = Ok scored ->
  wf_frame scored = true ->
  assoc "label" scored = Some label_col ->
  labels_match model label_col ->
  (forall mid, gold64_frame float_of_string scored = Ok mid ->
     (exists scores, mapR score_of_row (iterrows mid) = Ok scores) /\
     (exists diffs, mapR abs_gold_diff (iterrows mid) = Ok diffs)) /\
  (forall df' sub, prepare float_of_string scored = Ok df' ->
     selection_of df' sub ->
     (exists scores, mapR score_of_row (iterrows sub) = Ok scores) /\
     (exists y_true y_score,
        calculate_auc roc_auc_score sub = roc_auc_score y_true y_score)) /\
  (forall row : Series, (exists v, score_of_row row = Ok v) <-> label_finds row) /\
  (forall (row : Series) (l : string),
     assoc "label" row = Some (VStr l) -> l ∉ row.*1 ->
     score_of_row row = Raise KeyError).
Proof using roc_auc_score float_of_string.
clear ModelRunner open_w.
intros Hscore Hwf Hl Hmatch. pose proof (wf_frame_ok _ Hwf) as Hok.
assert (forall c, c ∈ label_col -> exists l, c = VStr l /\ l ∈ columns scored)
  as Hcells.
{ intros c Hc. unfold labels_match in Hmatch. rewrite Forall_forall in Hmatch.
  destruct (Hmatch c Hc) as (l & -> & Hin). exists l. split; [done|].
  rewrite (score_gold_columns _ _ _ Hscore), elem_of_app. by left. }
assert (forall df' sub, prepare float_of_string scored = Ok df' ->
  selection_of df' sub ->
  exists scores, mapR score_of_row (iterrows sub) = Ok scores) as Hsel.
{ intros df' sub Hp Hsub.
  destruct (prepare_frame_ok _ _ Hok Hp) as [Hok' _].
  assert (assoc "label" df' = Some label_col) as Hl'
    by (by rewrite (prepare_assoc _ _ "label" Hp)).
  destruct (selection_cells df' sub "label" label_col Hl' Hsub) as (col' & Hcol' & Hincl).
  apply (lookups_succeed _ col'); [by eapply selection_frame_ok | done |].
  intros c (l & -> & Hin)%Hincl%Hcells. exists l. split; [done|].
  rewrite (selection_columns _ _ Hsub).
  destruct (prepare_inv _ _ Hp) as (? & ? & ? & _ & _ & _ & _ & ->).
  by do 2 apply columns_setitem_incl. }
split; [|split; [|split]].
4: { intros row l Hrow Hnot. unfold score_of_row, series_getitem. rewrite Hrow. simpl.
  unfold series_getitem. destruct (assoc l row) as [v|] eqn:Hv; [|done].
  destruct Hnot. apply assoc_is_Some. eauto. }
- intros mid (gold & gold64 & Hgold & H64 & ->)%gold64_frame_inv.
  destruct (astype_float64_floats _ _ H64) as [fs64 ->].
  assert (frame_ok (df_setitem scored "gold" (map VFloat fs64))) as Hok_mid.
  { apply (frame_ok_setitem scored "gold" (map VFloat fs64));
      [done | | by eapply assoc_not_nil].
    rewrite (mapR_length _ _ _ H64). by eapply frame_ok_assoc. }
  assert (assoc "label" (df_setitem scored "gold" (map VFloat fs64)) = Some label_col)
    as Hl_mid by (by rewrite assoc_setitem_ne).
  split.
  + apply (lookups_succeed _ label_col); [done..|].
    intros c (l & -> & Hin)%Hcells. exists l. split; [done|].
    by apply columns_setitem_incl.
  + apply (abs_diffs_total _ label_col); [done..| |].
    * exists fs64. apply assoc_setitem_eq.
    * intros c Hc. unfold labels_match in Hmatch. rewrite Forall_forall in Hmatch.
      destruct (Hmatch c Hc) as (l & -> & Hin). exists l.
      destruct (decide (l = "gold")) as [->|Hne].
      -- exists fs64. split; [done|]. apply assoc_setitem_eq.
      -- destruct (score_gold_head_floats _ _ _ l Hscore Hin) as [fs Hfs].
         exists fs. split; [done|]. by rewrite assoc_setitem_ne.
- intros df' sub Hp Hsub. split; [by eapply Hsel|].
  destruct (prepare_gold _ _ Hp) as [gold' Hgold'].
  destruct (selection_cells df' sub "gold" gold' Hgold' Hsub) as (col' & Hcol' & _).
  destruct (Hsel df' (mask_select sub (map isin01 col')) Hp) as [ys Hys];
    [by constructor|].
  unfold calculate_auc, df_getitem. rewrite Hcol'. simpl. rewrite Hys. simpl.
  rewrite assoc_mask_select, Hcol'. simpl. eauto.
- intros row. unfold score_of_row, series_getitem, label_finds.
  destruct (assoc "label" row) as [[z|f|l]|]; simpl.
  + apply series_iloc_ok.
  + split; [by intros [v Hv] | done].
  + unfold series_getitem. rewrite <- assoc_is_Some.
    destruct (assoc l row) as [v|]; simpl.
    * split; eauto.
    * split; [by intros [v Hv] | by intros [v Hv]].
  + split; [by intros [v Hv] | done].
Qed.

(** *** [eval_gold] a second time *)

Lemma astype_float64_idem fs :
  astype_float64 float_of_string (map VFloat fs) = Ok (map VFloat fs).
Proof.
unfold astype_float64. rewrite mapR_map. simpl. apply (mapR_pure VFloat).
Qed.

Lemma df_setitem_same df k col : assoc k df = Some col -> df_setitem df k col = df.
Proof.
induction df as [|[k' c] df IH]; simpl; [done|].
destruct (String.eqb_spec k k') as [->|_].
- by intros [= ->].
- intros H. by rewrite IH.
Qed.

Lemma iterrows_n_agree (P : string -> Prop) n df1 df2 :
  (forall k, P k -> assoc k df1 = assoc k df2) ->
  Forall2 (fun r1 r2 : Series => forall k, P k -> assoc k r1 = assoc k r2)
    (iterrows_n n df1) (iterrows_n n df2).
Proof.
revert df1 df2. induction n as [|n IH]; intros df1 df2 H; simpl; constructor.
- intros k Hk. by rewrite !assoc_heads, (H k Hk).
- apply IH. intros k Hk. by rewrite !assoc_tails, (H k Hk).
Qed.

Lemma mapR_Forall2 {A B} (R : A -> A -> Prop) (f : A -> result B) l1 l2 :
  Forall2 R l1 l2 -> (forall a b, R a b -> b ∈ l2 -> f a = f b) ->
  mapR f l1 = mapR f l2.
Proof.
induction 1 as [|a b l1 l2 Hab _ IH]; intros Hf; simpl; [done|].
rewrite (Hf a b Hab) by left. rewrite IH; [done|].
intros a' b' Hab' Hb'. apply Hf; [done | by right].
Qed.

(** A call of [eval_gold] that returns has met only string labels: the
    key ['auc_' + label] of the first name of a label cannot be built from
    a number. *)
Lemma cell_eqb_trans a b c :
  cell_eqb a b = true -> cell_eqb b c = true -> cell_eqb a c = true.
Proof.
destruct a as [x|[p|]|s], b as [y|[q|]|t], c as [z|[r|]|u]; simpl; try done;
  try apply Qeq_bool_trans.
intros ->%String.eqb_eq ->%String.eqb_eq. apply String.eqb_refl.
Qed.

Lemma cell_eqb_nan_l a b : cell_is_nan a = true -> cell_eqb a b = false.
Proof. by destruct a as [x|[p|]|s], b as [y|[q|]|t]. Qed.

Lemma cell_eqb_nan_r a b : cell_is_nan b = true -> cell_eqb a b = false.
Proof. by destruct a as [x|[p|]|s], b as [y|[q|]|t]. Qed.

Lemma cell_same_trans a b c :
  cell_same a b = true -> cell_same b c = true -> cell_same a c = true.
Proof.
unfold cell_same.
intros [H1|[Ha Hb]%andb_prop]%orb_prop [H2|[Hb' Hc]%andb_prop]%orb_prop.
- by rewrite (cell_eqb_trans _ _ _ H1 H2).
- by rewrite (cell_eqb_nan_r a b Hb') in H1.
- by rewrite (cell_eqb_nan_l b c Hb) in H2.
- rewrite Ha, Hc. apply orb_true_r.
Qed.

Lemma cell_same_refl c : cell_same c c = true.
Proof.
unfold cell_same. destruct c as [z|[q|]|s]; simpl; [| |done|].
- by rewrite Qeq_bool_refl.
- by rewrite Qeq_bool_refl.
- by rewrite String.eqb_refl.
Qed.

Lemma unique_covers col c :
  c ∈ col -> exists c', c' ∈ unique col /\ cell_same c' c = true.
Proof.
induction col as [|d col IH]; simpl; [by intros ?%elem_of_nil|].
intros [->|Hin]%elem_of_cons.
- exists d. split; [left | apply cell_same_refl].
- destruct (IH Hin) as (c' & Hc' & Hsame).
  destruct (cell_same d c') eqn:Hd.
  + exists d. split; [left | by eapply cell_same_trans].
  + exists c'. split; [|done]. right. apply filter_elem. by rewrite Hd.
Qed.

Lemma bool_mask_hit {A} (f : cell -> bool) (col : column) (l : list A) c :
  c ∈ col -> f c = true -> length l = length col -> bool_mask (map f col) l <> [].
Proof.
revert l. induction col as [|d col IH]; intros l Hin Hc Hlen; [by apply elem_of_nil in Hin|].
destruct l as [|x l]; [done|]. simpl.
destruct (f d) eqn:Hd; [done|].
apply elem_of_cons in Hin as [->|Hin]; [congruence|].
apply IH; [done..|]. simpl in Hlen. congruence.
Qed.

Lemma metrics_labels_strings df res labels c :
  frame_ok df ->
  metrics roc_auc_score df = Ok res ->
  assoc "label" df = Some labels ->
  c ∈ labels -> cell_is_nan c = false ->
  exists s, c = VStr s.
Proof using.
clear ModelRunner open_w float_of_string.
intros Hok Hm Hl Hc Hnan.
destruct (metrics_ok df res Hm) as (diff_col & avg & auc & labels' & kvss & _ & _ & _ & Hl' & Hmap & _).
rewrite Hl in Hl'. injection Hl' as <-.
destruct (unique_covers labels c Hc) as (c' & Hc' & Hsame).
assert (cell_eqb c' c = true) as Heq.
{ unfold cell_same in Hsame. rewrite Hnan, andb_false_r, orb_false_r in Hsame. done. }
destruct (mapR_ok_elem _ _ _ _ Hmap Hc') as (kvs & Hle & _).
destruct (label_entries_inv df labels c' kvs Hl Hle) as (names_l & Hn & Hmn).
rewrite assoc_mask_select in Hn.
destruct (assoc "name" df) as [names|] eqn:Hnames; [|done].
injection Hn as <-.
assert (bool_mask (col_eq labels c') names <> []) as Hne.
{ apply (bool_mask_hit (fun x => cell_eqb x c') labels names c); [done| |].
  - destruct c as [z|[q|]|s], c' as [z'|[q'|]|s']; simpl in *; try done.
    + apply Qeq_bool_iff. symmetry. by apply Qeq_bool_iff.
    + apply Qeq_bool_iff. symmetry. by apply Qeq_bool_iff.
    + apply Qeq_bool_iff. symmetry. by apply Qeq_bool_iff.
    + apply Qeq_bool_iff. symmetry. by apply Qeq_bool_iff.
    + by rewrite String.eqb_sym.
  - rewrite (frame_ok_assoc _ _ _ Hok Hnames). symmetry. by eapply frame_ok_assoc. }
apply unique_not_nil in Hne.
destruct (unique (bool_mask (col_eq labels c') names)) as [|n ns] eqn:Hu; [done|].
destruct (mapR_ok_elem _ _ _ n Hmn) as (kv & Hkv & _); [left|].
assert (exists k, str_add "auc_" c' = Ok k) as [k Hk].
{ unfold name_entry in Hkv. destruct (cell_eqb n c').
  - apply rbind_ok in Hkv as (a & _ & Hkv).
    apply rbind_ok in Hkv as (k & Hk & _). eauto.
  - apply rbind_ok in Hkv as (nm & _ & Hkv).
    apply rbind_ok in Hkv as (a & _ & Hkv).
    apply rbind_ok in Hkv as (k & Hk & _). eauto. }
apply str_add_ok in Hk as (t & -> & _).
exists t. symmetry in Heq. by apply cell_eqb_str_l.
Qed.

(** X9.  Calling [eval_gold] again on the frame it has left is harmless:
    when the first call returns and no label is [abs_gold_diff], a second
    call on the modified frame returns the same results and leaves the
    frame as the first call left it. *)
Theorem eval_gold_twice (df df' : DataFrame) (res : gmap string cell)
    (label_col : column) :
  wf_frame df = true ->
  assoc "label" df = Some label_col ->
  VStr "abs_gold_diff" ∉ label_col ->
  eval_gold roc_auc_score float_of_string df = (df', Ok res) ->
  eval_gold roc_auc_score float_of_string df' = (df', Ok res).
Proof using.
clear ModelRunner.
intros Hwf Hl Hnot Heval. pose proof (wf_frame_ok _ Hwf) as Hok.
destruct (eval_gold_ok _ _ _ Heval) as [Hp Hm].
destruct (prepare_inv _ _ Hp) as (gold & gold64 & diffs & Hgold & H64 & _ & Hdiffs & Hdf').
destruct (astype_float64_floats _ _ H64) as [fs64 ->].
set (mid := df_setitem df "gold" (map VFloat fs64)) in *.
destruct (frame_ok_setitem df "gold" (map VFloat fs64) Hok) as [Hok_mid Hn_mid].
{ rewrite (mapR_length _ _ _ H64). by eapply frame_ok_assoc. }
{ by eapply assoc_not_nil. }
destruct (frame_ok_setitem mid "abs_gold_diff" (map VFloat diffs) Hok_mid)
  as [Hok' Hn'].
{ by rewrite length_map, (mapR_length _ _ _ Hdiffs), iterrows_length. }
{ apply df_setitem_not_nil. }
rewrite <- Hdf' in Hok', Hn'.
assert (assoc "gold" df' = Some (map VFloat fs64)) as Hgold'.
{ subst df'. rewrite assoc_setitem_ne by done. apply assoc_setitem_eq. }
assert (assoc "abs_gold_diff" df' = Some (map VFloat diffs)) as Hdiff'
  by (subst df'; apply assoc_setitem_eq).
assert (assoc "label" mid = Some label_col) as Hl_mid
  by (unfold mid; by rewrite assoc_setitem_ne).
assert (mapR abs_gold_diff (iterrows df') = Ok diffs) as Hdiffs'.
{ rewrite <- Hdiffs. unfold iterrows. rewrite Hn'.
  apply (mapR_Forall2 (fun r1 r2 : Series =>
           forall k, k <> "abs_gold_diff" -> assoc k r1 = assoc k r2)).
  - apply iterrows_n_agree. intros k Hk. subst df'. by rewrite assoc_setitem_ne.
  - intros a b Hab Hb. unfold abs_gold_diff, score_of_row, series_getitem.
    rewrite (Hab "label"), (Hab "gold") by done.
    destruct (assoc "label" b) as [c|] eqn:Hc; simpl; [|done].
    pose proof (row_cell_in_column mid "label" label_col b c Hok_mid Hl_mid Hb Hc)
      as Hcin.
    destruct c as [z|f|s]; simpl; [|done|].
    + assert (assoc "label" df' = Some label_col) as Hl'
        by (subst df'; by rewrite assoc_setitem_ne).
      by destruct (metrics_labels_strings df' res label_col (VInt z) Hok' Hm Hl' Hcin)
        as [s Hs].
    + unfold series_getitem. rewrite (Hab s); [done|]. by intros ->. }
apply eval_gold_of_phases; [|done].
unfold prepare, gold64_frame, df_getitem. rewrite Hgold'. simpl.
rewrite astype_float64_idem. simpl.
rewrite (df_setitem_same df' "gold" _ Hgold'), Hdiffs'. simpl.
by rewrite (df_setitem_same df' "abs_gold_diff" _ Hdiff').
Qed.

(** *** [main] and the files *)

(** X10.  [main] writes nothing until [eval_gold] has returned, and then
    the JSON file before the CSV file.  Without the gold file it raises
    [NotFoundError] at once; an error of [eval_gold] leaves the file
    system as it was, and so does a JSON path that cannot be written.
    When it raises, the file system is as it was or holds, in addition,
    only the JSON metrics: this is the case when the JSON path could be
    written and the output path could not.  When it returns, it has
    written the scored CSV at the output path and, where that path
    differs from it, the JSON metrics with their [gold_path] entry at
    [job_dir/gold_eval.json], and every other file is untouched. *)
Theorem main_writes_only (FLAGS : Flags) (fs : gmap string file) :
  (fs !! gold_path FLAGS = None ->
     main roc_auc_score float_of_string ModelRunner open_w FLAGS fs =
     (fs, Raise NotFoundError)) /\
  (forall scored df' e,
     scored_input ModelRunner FLAGS fs = Ok scored ->
     eval_gold roc_auc_score float_of_string scored = (df', Raise e) ->
     main roc_auc_score float_of_string ModelRunner open_w FLAGS fs = (fs, Raise e)) /\
  (forall scored df' res e,
     scored_input ModelRunner FLAGS fs = Ok scored ->
     eval_gold roc_auc_score float_of_string scored = (df', Ok res) ->
     open_w (eval_path FLAGS) = Raise e ->
     main roc_auc_score float_of_string ModelRunner open_w FLAGS fs = (fs, Raise e)) /\
  (forall scored df' res e,
     scored_input ModelRunner FLAGS fs = Ok scored ->
     eval_gold roc_auc_score float_of_string scored = (df', Ok res) ->
     open_w (eval_path FLAGS) = Ok tt ->
     open_w (output_path FLAGS) = Raise e ->
     main roc_auc_score float_of_string ModelRunner open_w FLAGS fs =
     (<[eval_path FLAGS :=
          JsonFile (<["gold_path" := VStr (gold_path FLAGS)]> res)]> fs,
      Raise e)) /\
  (forall e,
     (main roc_auc_score float_of_string ModelRunner open_w FLAGS fs).2 = Raise e ->
     (main roc_auc_score float_of_string ModelRunner open_w FLAGS fs).1 = fs \/
     exists d,
       open_w (eval_path FLAGS) = Ok tt /\
       open_w (output_path FLAGS) = Raise e /\
       (main roc_auc_score float_of_string ModelRunner open_w FLAGS fs).1 =
         <[eval_path FLAGS := JsonFile d]> fs) /\
  ((main roc_auc_score float_of_string ModelRunner open_w FLAGS fs).2 = Ok tt ->
     (forall p, p <> eval_path FLAGS -> p <> output_path FLAGS ->
        (main roc_auc_score float_of_string ModelRunner open_w FLAGS fs).1 !! p = fs !! p) /\
     (exists df',
        (main roc_auc_score float_of_string ModelRunner open_w FLAGS fs).1 !! output_path FLAGS =
        Some (CsvFile df')) /\
     (eval_path FLAGS <> output_path FLAGS ->
        exists d,
          (main roc_auc_score float_of_string ModelRunner open_w FLAGS fs).1 !! eval_path FLAGS =
            Some (JsonFile d) /\
          d !! "gold_path" = Some (VStr (gold_path FLAGS)))).
Proof.
split; [|split; [|split; [|split; [|split]]]].
- intros Hnone. unfold main, read_csv. by rewrite Hnone.
- intros scored df' e Hscored Heval. by rewrite (main_unfold _ _ _ Hscored), Heval.
- intros scored df' res e Hscored Heval Hw.
  rewrite (main_writes _ _ _ _ _ Hscored Heval). simpl. by rewrite Hw.
- intros scored df' res e Hscored Heval Hw1 Hw2.
  rewrite (main_writes _ _ _ _ _ Hscored Heval). simpl. by rewrite Hw1, Hw2.
- intros e. destruct (scored_input ModelRunner FLAGS fs) as [scored|e0] eqn:Hscored.
  + destruct (eval_gold roc_auc_score float_of_string scored) as [df' [res|e0]] eqn:Heval.
    * rewrite (main_writes _ _ _ _ _ Hscored Heval). simpl.
      destruct (open_w (eval_path FLAGS)) as [[]|e1]; [|by left].
      destruct (open_w (output_path FLAGS)) as [[]|e2]; [done|].
      simpl. intros [= ->]. right. eauto.
    * rewrite (main_unfold _ _ _ Hscored), Heval. by left.
  + unfold main. unfold scored_input in Hscored. rewrite Hscored. by left.
- destruct (scored_input ModelRunner FLAGS fs) as [scored|e0] eqn:Hscored.
  + destruct (eval_gold roc_auc_score float_of_string scored) as [df' [res|e0]] eqn:Heval.
    * rewrite (main_writes _ _ _ _ _ Hscored Heval). simpl.
      destruct (open_w (eval_path FLAGS)) as [[]|e1]; [|done].
      destruct (open_w (output_path FLAGS)) as [[]|e2]; [|done].
      simpl. intros _. split; [|split].
      -- intros p Hp1 Hp2. by rewrite !lookup_insert_ne.
      -- exists df'. by rewrite lookup_insert_eq.
      -- intros Hne. eexists. rewrite lookup_insert_ne by done.
         rewrite lookup_insert_eq. split; [done|]. by rewrite lookup_insert_eq.
    * by rewrite (main_unfold _ _ _ Hscored), Heval.
  + unfold main. unfold scored_input in Hscored. by rewrite Hscored.
Qed.

End Properties.

(** ** The reference metric *)






(** ** The script on the sample data *)

(** Of the six rows of [graded_scored] three have a gold value of 0 or
    1; the AUC is that of their gold values and scores. *)
Lemma calculate_auc_gold_01_witness :
  wf_frame graded_scored = true /\
  length (iterrows graded_scored) = 6 /\
  map gold_of_row (List.filter gold_zero_or_one (iterrows graded_scored)) =
    [VFloat (FNum 0); VFloat (FNum 1); VFloat (FNum 1)] /\
  mapR predicted_score (List.filter gold_zero_or_one (iterrows graded_scored)) =
    Ok [VFloat (FNum (6 # 10)); VFloat (FNum (9 # 10)); VFloat (FNum (5 # 10))] /\
  calculate_auc roc_auc_ref graded_scored = Ok (FNum (1 # 2)).
Proof.
  split; [reflexivity|]. split; [reflexivity|].
  split; [vm_compute; reflexivity|]. split; [vm_compute; reflexivity|].
  eapply eq_trans.
  - apply (calculate_auc_gold_01 roc_auc_ref graded_scored). reflexivity.
  - vm_compute. reflexivity.
Defined.

Lemma eval_gold_auc_label_name_witness :
  exists a,
    sample_results !! ("auc_" +:+ "threat" +:+ "_" +:+ "direct") = Some (VFloat a) /\
    auc_of_rows roc_auc_ref
      (label_name_rows (VStr "threat") (VStr "direct") (iterrows sample_prepared)) = Ok a.
Proof.
  apply (eval_gold_auc_label_name roc_auc_ref no_float_of_string
           sample_scored sample_prepared sample_results "threat" "direct").
  - reflexivity.
  - vm_compute. reflexivity.
  - discriminate.
  - exists (nth 4 (iterrows sample_prepared) []).
    split; [apply list_elem_of_In; vm_compute; tauto|]. split; reflexivity.
  - solve_only_writer.
Defined.

(** Two label/name pairs that meet on one key: the later AUC replaces the
    earlier one, which contradicts C2 as it is stated. *)
Lemma auc_label_name_overwritten :
  wf_frame colliding_scored = true /\
  eval_gold roc_auc_ref no_float_of_string colliding_scored =
    (colliding_prepared, Ok colliding_results) /\
  (exists row, row ∈ iterrows colliding_prepared /\
               assoc "label" row = Some (VStr "a") /\
               assoc "name" row = Some (VStr "b_c")) /\
  auc_of_rows roc_auc_ref
    (label_name_rows (VStr "a") (VStr "b_c") (iterrows colliding_prepared)) =
    Ok (FNum 1) /\
  colliding_results !! ("auc_" +:+ "a" +:+ "_" +:+ "b_c") = Some (VFloat (FNum 0)) /\
  colliding_results !! ("auc_" +:+ "a" +:+ "_" +:+ "b_c") <> Some (VFloat (FNum 1)).
Proof.
  split; [reflexivity|]. split; [vm_compute; reflexivity|]. split.
  { exists (nth 0 (iterrows colliding_prepared) []).
    split; [apply list_elem_of_In; vm_compute; tauto|]. split; reflexivity. }
  split; [vm_compute; reflexivity|]. split; [vm_compute; reflexivity|].
  vm_compute. discriminate.
Qed.

Lemma main_json_keys_witness :
  exists df' d,
    (ref_main sample_flags (sample_fs sample_gold)).1 !! output_path sample_flags =
      Some (CsvFile df') /\
    (ref_main sample_flags (sample_fs sample_gold)).1 !! eval_path sample_flags =
      Some (JsonFile d) /\
    d !! "gold_path" = Some (VStr (gold_path sample_flags)) /\
    is_Some (d !! "avg_diff") /\
    is_Some (d !! "auc_all") /\
    (forall k, is_Some (d !! k) ->
       k = "avg_diff" \/ k = "auc_all" \/ k = "gold_path" \/
       exists row l n,
         row ∈ iterrows df' /\ assoc "label" row = Some l /\
         assoc "name" row = Some n /\ key_of l n = Ok k) /\
    (forall l : string,
       (exists row, row ∈ iterrows df' /\ assoc "label" row = Some (VStr l) /\
                    assoc "name" row = Some (VStr l)) ->
       only_writer df' ("auc_" +:+ l) (VStr l) (VStr l) ->
       exists a,
         d !! ("auc_" +:+ l) = Some (VFloat a) /\
         auc_of_rows roc_auc_ref (label_rows (VStr l) (iterrows df')) = Ok a) /\
    (forall l : string,
       l <> "all" ->
       (forall row l' n',
          row ∈ iterrows df' -> assoc "label" row = Some l' ->
          assoc "name" row = Some n' -> key_of l' n' <> Ok ("auc_" +:+ l)) ->
       d !! ("auc_" +:+ l) = None).
Proof.
  apply (main_json_keys roc_auc_ref no_float_of_string toy_runner all_writable
           sample_flags (sample_fs sample_gold) _ sample_scored).
  - vm_compute. reflexivity.
  - reflexivity.
  - discriminate.
  - vm_compute. reflexivity.
Defined.

(** A label none of whose rows is named after it: no key [auc_threat] in
    the JSON file, which contradicts C3 as it is stated. *)
Lemma label_without_auc_key :
  (ref_main sample_flags (sample_fs subcategory_gold)).2 = Ok tt /\
  VStr "threat" ∈ default [] (assoc "label" subcategory_gold) /\
  exists d,
    (ref_main sample_flags (sample_fs subcategory_gold)).1 !! eval_path sample_flags =
      Some (JsonFile d) /\
    d !! ("auc_" +:+ "threat") = None.
Proof.
  split; [vm_compute; reflexivity|]. split; [left|].
  eexists. split; [vm_compute; reflexivity|]. vm_compute. reflexivity.
Qed.

(** On the sample data the six differences are 0.1, 0.1, 0.2, 0.2, 0.7
    and 0.1, and [avg_diff] is their mean, 7/30. *)
Lemma eval_gold_avg_diff_witness :
  (exists mid diffs,
     gold64_frame no_float_of_string sample_scored = Ok mid /\
     mapR abs_difference (iterrows mid) = Ok diffs /\
     length diffs = nrows sample_scored /\
     sample_results !! "avg_diff" =
       Some (VFloat (mean_every_row (List.filter (fun d => negb (is_nan d)) diffs))) /\
     (Forall (fun d => is_nan d = false) diffs ->
      sample_results !! "avg_diff" = Some (VFloat (mean_every_row diffs)))) /\
  (exists q, sample_results !! "avg_diff" = Some (VFloat (FNum q)) /\ (q == 7 # 30)%Q).
Proof.
  split.
  - apply (eval_gold_avg_diff roc_auc_ref no_float_of_string
             sample_scored sample_prepared sample_results).
    + reflexivity.
    + vm_compute. reflexivity.
  - eexists. split; [vm_compute; reflexivity|]. reflexivity.
Defined.

(** A row without a gold value is left out of the mean: [avg_diff] is the
    mean over two of the three rows, which contradicts C4 as it is
    stated. *)
Lemma avg_diff_skips_missing_gold :
  exists mid diffs df' res,
    gold64_frame no_float_of_string missing_scored = Ok mid /\
    mapR abs_difference (iterrows mid) = Ok diffs /\
    length diffs = 3 /\
    eval_gold roc_auc_ref no_float_of_string missing_scored = (df', Ok res) /\
    mean_every_row diffs = FNaN /\
    res !! "avg_diff" = Some (VFloat (FNum (20 # 200))) /\
    res !! "avg_diff" <> Some (VFloat (mean_every_row diffs)).
Proof.
  do 2 eexists. exists (ref_eval missing_scored).1, (results_of (ref_eval missing_scored).2).
  split; [vm_compute; reflexivity|]. split; [vm_compute; reflexivity|].
  split; [reflexivity|]. split; [vm_compute; reflexivity|].
  split; [reflexivity|]. split; [vm_compute; reflexivity|].
  vm_compute. discriminate.
Qed.

Lemma toy_model_one_row_per_comment text scores :
  predict toy_model text = Ok scores -> length scores = length text.
Proof. simpl. intros [= <-]. apply length_map. Qed.



(** The gold data of the header comment has no [name] column: the
    pipeline raises [KeyError] on it. *)
Lemma header_example_fails :
  pipeline roc_auc_ref no_float_of_string header_gold toy_model = Raise KeyError.
Proof. vm_compute. reflexivity. Qed.

Lemma pipeline_needs_name_witness :
  raises (eval_gold roc_auc_ref no_float_of_string (run_score header_gold toy_model)).2 /\
  raises (pipeline roc_auc_ref no_float_of_string header_gold toy_model).
Proof.
  apply (pipeline_needs_name roc_auc_ref no_float_of_string header_gold toy_model
           (run_score header_gold toy_model)).
  - vm_compute. reflexivity.
  - reflexivity.
  - vm_compute. discriminate.
  - intros H%list_elem_of_In. vm_compute in H. intuition discriminate.
  - intros H%list_elem_of_In. vm_compute in H. intuition discriminate.
Defined.


Lemma sample_labels_match :
  labels_match toy_model
    [VStr "threat"; VStr "threat"; VStr "obscene"; VStr "obscene";
     VStr "threat"; VStr "threat"].
Proof.
  unfold labels_match. repeat constructor;
    eexists; (split; [reflexivity|]); apply list_elem_of_In; vm_compute; tauto.
Qed.

Lemma score_lookups_succeed_witness :
  (forall mid, gold64_frame no_float_of_string sample_scored = Ok mid ->
     (exists scores, mapR score_of_row (iterrows mid) = Ok scores) /\
     (exists diffs, mapR abs_gold_diff (iterrows mid) = Ok diffs)) /\
  (forall df' sub, prepare no_float_of_string sample_scored = Ok df' ->
     selection_of df' sub ->
     (exists scores, mapR score_of_row (iterrows sub) = Ok scores) /\
     (exists y_true y_score,
        calculate_auc roc_auc_ref sub = roc_auc_ref y_true y_score)) /\
  (forall row : Series, (exists v, score_of_row row = Ok v) <-> label_finds row) /\
  (forall (row : Series) (l : string),
     assoc "label" row = Some (VStr l) -> l ∉ row.*1 ->
     score_of_row row = Raise KeyError).
Proof.
  apply (score_lookups_succeed roc_auc_ref no_float_of_string sample_gold toy_model
           sample_scored
           [VStr "threat"; VStr "threat"; VStr "obscene"; VStr "obscene";
            VStr "threat"; VStr "threat"]).
  - vm_compute. reflexivity.
  - reflexivity.
  - reflexivity.
  - apply sample_labels_match.
Defined.

(** Labels that name a column of the gold file and no head of the model:
    every lookup succeeds and [eval_gold] returns, which contradicts C8
    as it is stated. *)
Lemma lookup_succeeds_without_head :
  exists scored mid,
    score_gold unit_label_gold toy_model = Ok scored /\
    assoc "label" scored = Some [VStr "_unit_id"; VStr "_unit_id"] /\
    ~ labels_match toy_model [VStr "_unit_id"; VStr "_unit_id"] /\
    gold64_frame no_float_of_string scored = Ok mid /\
    mapR score_of_row (iterrows mid) = Ok [VInt 15190; VInt 15193] /\
    (exists diffs, mapR abs_gold_diff (iterrows mid) = Ok diffs) /\
    (exists a, calculate_auc roc_auc_ref mid = Ok a) /\
    (exists df' res, eval_gold roc_auc_ref no_float_of_string scored = (df', Ok res)).
Proof.
  do 2 eexists.
  split; [vm_compute; reflexivity|]. split; [vm_compute; reflexivity|].
  split.
  { intros H. apply Forall_cons in H as [(l & [= <-] & Hin) _].
    apply list_elem_of_In in Hin. vm_compute in Hin. intuition discriminate. }
  split; [vm_compute; reflexivity|]. split; [vm_compute; reflexivity|].
  split; [eexists; vm_compute; reflexivity|].
  split; [eexists; vm_compute; reflexivity|].
  do 2 eexists. vm_compute. reflexivity.
Qed.

(** An integer label stands for a position of the row, from its start or
    from its end; outside the row it is an [IndexError]. *)
Lemma integer_label_is_position :
  score_of_row [("threat", VFloat (FNum (9 # 10))); ("label", VInt 0)] =
    Ok (VFloat (FNum (9 # 10))) /\
  score_of_row [("threat", VFloat (FNum (9 # 10))); ("label", VInt (-1))] =
    Ok (VInt (-1)) /\
  score_of_row [("threat", VFloat (FNum (9 # 10))); ("label", VInt 2)] =
    Raise IndexError /\
  score_of_row [("threat", VFloat (FNum (9 # 10))); ("label", VStr "obscene")] =
    Raise KeyError.
Proof. repeat split; vm_compute; reflexivity. Qed.

Lemma eval_gold_mutates_frame_witness :
  (exists gold gold64,
     assoc "gold" sample_scored = Some gold /\
     astype_float64 no_float_of_string gold = Ok (map VFloat gold64) /\
     assoc "gold" sample_prepared = Some (map VFloat gold64)) /\
  (exists diffs,
     assoc "abs_gold_diff" sample_prepared = Some (map VFloat diffs) /\
     length diffs = nrows sample_scored) /\
  (forall k, k <> "gold" -> k <> "abs_gold_diff" ->
     assoc k sample_prepared = assoc k sample_scored) /\
  columns sample_prepared =
    (if decide ("abs_gold_diff" ∈ columns sample_scored) then columns sample_scored
     else columns sample_scored ++ ["abs_gold_diff"]) /\
  (forall FLAGS fs,
     scored_input toy_runner FLAGS fs = Ok sample_scored ->
     (forall fs',
        main roc_auc_ref no_float_of_string toy_runner all_writable FLAGS fs =
          (fs', Ok tt) ->
        fs' !! output_path FLAGS = Some (CsvFile sample_prepared)) /\
     (all_writable (eval_path FLAGS) = Ok tt ->
      all_writable (output_path FLAGS) = Ok tt ->
      exists fs',
        main roc_auc_ref no_float_of_string toy_runner all_writable FLAGS fs =
          (fs', Ok tt) /\
        fs' !! output_path FLAGS = Some (CsvFile sample_prepared))).
Proof.
  apply (eval_gold_mutates_frame roc_auc_ref no_float_of_string toy_runner
           all_writable sample_scored sample_prepared sample_results).
  - reflexivity.
  - vm_compute. reflexivity.
Defined.

(** ** The properties beyond the claims, on the sample data *)

Lemma score_gold_wf_witness :
  wf_frame sample_scored = true /\
  columns sample_scored = labels toy_model ++ columns sample_gold /\
  nrows sample_gold <= nrows sample_scored.
Proof.
apply (score_gold_wf sample_gold toy_model sample_scored).
- reflexivity.
- apply (bool_decide_unpack (NoDup _)). vm_compute. exact I.
- vm_compute. reflexivity.
Defined.

Lemma score_gold_keeps_gold_witness :
  exists scores,
    sample_scored = score_columns (labels toy_model) scores ++ sample_gold /\
    length scores = nrows sample_gold /\
    (forall k, k ∉ labels toy_model -> assoc k sample_scored = assoc k sample_gold).
Proof.
apply (score_gold_keeps_gold sample_gold toy_model sample_scored).
- reflexivity.
- apply toy_model_one_row_per_comment.
- vm_compute. reflexivity.
Defined.

Lemma score_gold_reads_comments_only_witness :
  (forall e, score_gold header_gold toy_model = Raise e <->
             score_gold header_named_gold toy_model = Raise e) /\
  (forall scored1 scored2 l,
     score_gold header_gold toy_model = Ok scored1 ->
     score_gold header_named_gold toy_model = Ok scored2 ->
     l ∈ labels toy_model ->
     assoc l scored1 = assoc l scored2).
Proof.
apply (score_gold_reads_comments_only header_gold header_named_gold toy_model);
  reflexivity.
Defined.

Lemma calculate_auc_drops_excluded_witness :
  calculate_auc roc_auc_ref (mask_select missing_scored [true; true; false]) =
  calculate_auc roc_auc_ref missing_scored.
Proof.
apply (calculate_auc_drops_excluded roc_auc_ref missing_scored
         [VFloat (FNum 0); VFloat (FNum 1); NaN] [true; true; false]).
- reflexivity.
- reflexivity.
- repeat constructor; vm_compute; discriminate.
Defined.

Lemma eval_gold_auc_all_witness :
  exists a,
    sample_results !! "auc_all" = Some (VFloat a) /\
    calculate_auc roc_auc_ref sample_prepared = Ok a /\
    auc_of_rows roc_auc_ref (iterrows sample_prepared) = Ok a.
Proof.
apply (eval_gold_auc_all roc_auc_ref no_float_of_string
         sample_scored sample_prepared sample_results).
- reflexivity.
- vm_compute. reflexivity.
- intros row Hrow [Hl _]. each_row Hrow; vm_compute in Hl; discriminate.
Defined.

Lemma eval_gold_names_are_labels_witness :
  (forall l, (exists row, row ∈ iterrows plain_prepared /\
                          assoc "label" row = Some (VStr l)) ->
     exists a,
       plain_results !! ("auc_" +:+ l) = Some (VFloat a) /\
       auc_of_rows roc_auc_ref (label_rows (VStr l) (iterrows plain_prepared)) = Ok a) /\
  (forall k, is_Some (plain_results !! k) ->
     k = "avg_diff" \/ k = "auc_all" \/
     exists row l, row ∈ iterrows plain_prepared /\
                   assoc "label" row = Some (VStr l) /\ k = "auc_" +:+ l).
Proof.
apply (eval_gold_names_are_labels roc_auc_ref no_float_of_string
         plain_scored plain_prepared plain_results).
- reflexivity.
- vm_compute. reflexivity.
- intros row Hrow. each_row Hrow;
    [exists "threat" | exists "threat" | exists "obscene" | exists "obscene"];
    split; reflexivity.
Defined.

Lemma eval_gold_state_on_failure_witness :
  (gold64_frame no_float_of_string header_scored = Raise KeyError /\
   (eval_gold roc_auc_ref no_float_of_string header_scored).1 = header_scored) \/
  (exists mid,
     gold64_frame no_float_of_string header_scored = Ok mid /\
     mapR abs_gold_diff (iterrows mid) = Raise KeyError /\
     (eval_gold roc_auc_ref no_float_of_string header_scored).1 = mid) \/
  (exists df',
     prepare no_float_of_string header_scored = Ok df' /\
     metrics roc_auc_ref df' = Raise KeyError /\
     (eval_gold roc_auc_ref no_float_of_string header_scored).1 = df').
Proof.
apply (eval_gold_state_on_failure roc_auc_ref no_float_of_string header_scored KeyError).
vm_compute. reflexivity.
Defined.

Lemma eval_gold_unknown_label_witness :
  exists e, eval_gold roc_auc_ref no_float_of_string two_head_scored =
            (two_head_mid, Raise e).
Proof.
apply (eval_gold_unknown_label roc_auc_ref no_float_of_string two_head_scored
         two_head_mid
         [VStr "threat"; VStr "threat"; VStr "obscene"; VStr "flirtation"]
         "flirtation").
- reflexivity.
- reflexivity.
- apply list_elem_of_In. vm_compute. tauto.
- intros H%list_elem_of_In. vm_compute in H. intuition discriminate.
- vm_compute. reflexivity.
Defined.

Lemma eval_gold_twice_witness :
  eval_gold roc_auc_ref no_float_of_string sample_prepared =
  (sample_prepared, Ok sample_results).
Proof.
apply (eval_gold_twice roc_auc_ref no_float_of_string sample_scored sample_prepared
         sample_results
         [VStr "threat"; VStr "threat"; VStr "obscene"; VStr "obscene";
          VStr "threat"; VStr "threat"]).
- reflexivity.
- reflexivity.
- intros H%list_elem_of_In. vm_compute in H. intuition discriminate.
- vm_compute. reflexivity.
Defined.

(** With an output path that cannot be written, [main] raises and leaves
    the JSON metrics behind. *)
Lemma main_writes_only_witness :
  main roc_auc_ref no_float_of_string toy_runner csv_locked sample_flags
    (sample_fs sample_gold) =
  (<[eval_path sample_flags :=
       JsonFile (<["gold_path" := VStr (gold_path sample_flags)]> sample_results)]>
     (sample_fs sample_gold),
   Raise PermissionDeniedError).
Proof.
apply (proj1 (proj2 (proj2 (proj2
         (main_writes_only roc_auc_ref no_float_of_string toy_runner csv_locked
            sample_flags (sample_fs sample_gold)))))
         sample_scored sample_prepared sample_results PermissionDeniedError).
- vm_compute. reflexivity.
- vm_compute. reflexivity.
- reflexivity.
- reflexivity.
Defined.
